(** * spotirec: the OAuth2 token manager ([oauth2.py], class [SpotifyOAuth])

    A shallow embedding of [SpotifyOAuth] and the properties its
    specification states about it.

    Conventions of the embedding.
    - A Python [str] is a Rocq [string] holding its UTF-8 bytes.  The markers
      the code searches for (['?code='], ['&'], ['%'], ['+']) are ASCII, so
      searching bytes and searching code points agree.
    - [time.time()] is a float; a reading of the clock is the rational it
      denotes, and [time.time() + 30] is taken without rounding.  A JSON
      float is a rational likewise.
    - A file holds text: what [file.read()] returns.
    - The interpreter's library ([json], [base64], [int] applied to a
      string, UTF-8 decoding) is a parameter of the development
      ([PyLib]); [urllib.parse] and [str.split], whose exact output the
      properties are about, are written out. *)

From Stdlib Require Import Bool Arith ZArith QArith Qabs Lia List Ascii String.
From Stdlib Require Import Lqa.
Import ListNotations.

Close Scope Q_scope.
Local Open Scope string_scope.
Local Open Scope list_scope.

(** ** Strings: [str.split] *)

Module Str.

(** [s.startswith(p)], returning what follows the prefix. *)
Fixpoint strip_prefix (p s : string) : option string :=
  match p with
  | EmptyString => Some s
  | String a p' =>
      match s with
      | EmptyString => None
      | String b s' => if Ascii.eqb a b then strip_prefix p' s' else None
      end
  end.

(** The leftmost occurrence of [sep] in [s]: what is before it and what is
    after it ([str.partition] without the separator). *)
Fixpoint partition (sep s : string) : option (string * string) :=
  match strip_prefix sep s with
  | Some rest => Some (EmptyString, rest)
  | None =>
      match s with
      | EmptyString => None
      | String c s' =>
          match partition sep s' with
          | Some (a, b) => Some (String c a, b)
          | None => None
          end
      end
  end.

Fixpoint split_fuel (n : nat) (sep s : string) : list string :=
  match n with
  | O => [s]
  | S n' =>
      match partition sep s with
      | None => [s]
      | Some (a, b) => a :: split_fuel n' sep b
      end
  end.

(** [s.split(sep)] for a non-empty [sep] (both call sites pass a literal):
    the pieces between the leftmost non-overlapping occurrences.  A cut
    consumes at least one character, so [length s] rounds are enough
    ([split_unfold]). *)
Definition split (sep s : string) : list string :=
  split_fuel (String.length s) sep s.

(** [sep in s]. *)
Definition occurs (sep s : string) : Prop :=
  exists a b, s = (a ++ sep ++ b)%string.

(** The part of [s] before the leftmost [sep], all of [s] without one. *)
Definition upto (sep s : string) : string :=
  match partition sep s with
  | Some (a, _) => a
  | None => s
  end.

End Str.

(** ** [parse_response_code] *)

Definition code_marker : string := "?code=".

(** [url.split('?code=')[1].split('&')[0]]; an [IndexError] is swallowed
    and the method falls off its end, returning [None]. *)
Definition parse_response_code (url : string) : option string :=
  match nth_error (Str.split code_marker url) 1 with
  | None => None
  | Some seg =>
      match nth_error (Str.split "&" seg) 0 with
      | None => None
      | Some code => Some code
      end
  end.

(** The contract in the specification's words: everything after the first
    [?code=] up to the next [&] or the end of the string. *)
Definition extract_code_spec (url : string) : option string :=
  match Str.partition code_marker url with
  | None => None
  | Some (_, rest) => Some (Str.upto "&" rest)
  end.

(** ** [urllib.parse]: [quote], [quote_plus], [urlencode], [unquote] *)

Module Urllib.

Fixpoint mem (c : ascii) (s : string) : bool :=
  match s with
  | EmptyString => false
  | String d s' => Ascii.eqb c d || mem c s'
  end.

(** [_ALWAYS_SAFE]: the unreserved characters of RFC 3986. *)
Definition always_safe : string :=
  "ABCDEFGHIJKLMNOPQRSTUVWXYZabcdefghijklmnopqrstuvwxyz0123456789_.-~".

Definition hex_upper (n : N) : ascii :=
  match n with
  | 0%N => "0" | 1%N => "1" | 2%N => "2" | 3%N => "3" | 4%N => "4"
  | 5%N => "5" | 6%N => "6" | 7%N => "7" | 8%N => "8" | 9%N => "9"
  | 10%N => "A" | 11%N => "B" | 12%N => "C" | 13%N => "D" | 14%N => "E"
  | _ => "F"
  end%char.

(** ['%{:02X}'.format(byte)]. *)
Definition percent (c : ascii) : string :=
  let n := N_of_ascii c in
  String "%" (String (hex_upper (n / 16)) (String (hex_upper (n mod 16)) EmptyString)).

(** [quote_from_bytes(s.encode(), safe)]: bytes in [safe] or [_ALWAYS_SAFE]
    are kept, every other byte becomes [%XX]. *)
Fixpoint quote (safe s : string) : string :=
  match s with
  | EmptyString => EmptyString
  | String c s' =>
      ((if mem c always_safe || mem c safe then String c EmptyString else percent c)
         ++ quote safe s')%string
  end.

(** [s.replace(a, b)] for single characters. *)
Fixpoint replace_char (a b : ascii) (s : string) : string :=
  match s with
  | EmptyString => EmptyString
  | String c s' => String (if Ascii.eqb c a then b else c) (replace_char a b s')
  end.

(** [quote_plus(s, safe='')]: without a space it is [quote]; with one, the
    space is made safe for [quote] and replaced by [+] afterwards. *)
Definition quote_plus (s : string) : string :=
  if mem " " s then replace_char " " "+" (quote " " s) else quote EmptyString s.

(** What [quote_plus] makes of one byte. *)
Definition plus_encode (c : ascii) : string :=
  if Ascii.eqb c " " then "+"
  else if mem c always_safe then String c EmptyString
  else percent c.

Fixpoint flat_map (f : ascii -> string) (s : string) : string :=
  match s with
  | EmptyString => EmptyString
  | String c s' => (f c ++ flat_map f s')%string
  end.

(** ['&'.join(l)]. *)
Fixpoint join (sep : string) (l : list string) : string :=
  match l with
  | [] => EmptyString
  | [x] => x
  | x :: l' => (x ++ sep ++ join sep l')%string
  end.

(** [urlencode(params)] for a dict of [str] to [str], in insertion order,
    with the default [quote_via=quote_plus]. *)
Definition urlencode (params : list (string * string)) : string :=
  join "&" (map (fun kv => (quote_plus (fst kv) ++ "=" ++ quote_plus (snd kv))%string) params).

(** One hexadecimal digit of either case ([_hextobyte]'s keys). *)
Definition hex_value (c : ascii) : option N :=
  let n := N_of_ascii c in
  if ((48 <=? n) && (n <=? 57))%N then Some (n - 48)%N
  else if ((65 <=? n) && (n <=? 70))%N then Some (n - 55)%N
  else if ((97 <=? n) && (n <=? 102))%N then Some (n - 87)%N
  else None.

(** [unquote_to_bytes]: [%XX] with two hexadecimal digits is the byte
    [XX]; a [%] not followed by two such digits stays.  [unquote] then
    decodes the bytes as UTF-8, which on the bytes of a [str] changes
    nothing. *)
Fixpoint unquote (s : string) : string :=
  match s with
  | EmptyString => EmptyString
  | String c s' =>
      if Ascii.eqb c "%" then
        match s' with
        | String h (String l rest) =>
            match hex_value h, hex_value l with
            | Some a, Some b => String (ascii_of_N (16 * a + b)) (unquote rest)
            | _, _ => String c (unquote s')
            end
        | _ => String c (unquote s')
        end
      else String c (unquote s')
  end.

(** [unquote_plus(s)]: [+] is a space, then [unquote]. *)
Definition unquote_plus (s : string) : string :=
  unquote (replace_char "+" " " s).

(** What a reader of the URL sees: the text after the first [?], cut at
    every [&], each piece cut at its first [=]; values are left encoded. *)
Definition query_of (url : string) : string :=
  match Str.partition "?" url with
  | Some (_, q) => q
  | None => EmptyString
  end.

Definition parse_pair (kv : string) : string * string :=
  match Str.partition "=" kv with
  | Some (k, v) => (k, v)
  | None => (kv, EmptyString)
  end.

Definition query_params (url : string) : list (string * string) :=
  map parse_pair (Str.split "&" (query_of url)).

Fixpoint assoc (k : string) (l : list (string * string)) : option string :=
  match l with
  | [] => None
  | (k', v) :: l' => if String.eqb k k' then Some v else assoc k l'
  end.

End Urllib.

(** ** Python values and exceptions *)

Set Warnings "-register-all".


(** What [json.loads] builds: [None], [bool], [int], [float], [str],
    [list], [dict].  A [dict] keeps its keys in insertion order; a finite
    float is the rational it denotes. *)
Inductive json : Type :=
| JNull
| JBool (b : bool)
| JInt (n : Z)
| JFloat (x : Q)
| JStr (s : string)
| JList (l : list json)
| JDict (d : list (string * json)).

(** The exceptions the module can meet.  [OSError] is Python 3's [IOError]
    ([FileNotFoundError], [PermissionError], ...); [RequestException] is
    the root of the errors of [requests] and derives from [IOError]. *)
Inductive exn : Type :=
| OSError
| RequestException
| JSONDecodeError
| UnicodeDecodeError
| UnicodeEncodeError
| KeyError (key : string)
| TypeError
| ValueError.

Inductive result (A : Type) : Type :=
| Ok (a : A)
| Raise (e : exn).

Arguments Ok {A} a.
Arguments Raise {A} e.

(** [isinstance(e, IOError)]. *)
Definition is_IOError (e : exn) : bool :=
  match e with
  | OSError | RequestException => true
  | _ => false
  end.

(** [isinstance(e, json.decoder.JSONDecodeError)]. *)
Definition is_JSONDecodeError (e : exn) : bool :=
  match e with
  | JSONDecodeError => true
  | _ => false
  end.

Module Dict.

(** [d.get(k)]. *)
Fixpoint get (k : string) (d : list (string * json)) : option json :=
  match d with
  | [] => None
  | (k', v) :: d' => if String.eqb k k' then Some v else get k d'
  end.

(** [d[k] = v]: an existing key keeps its place, a new key goes last. *)
Fixpoint set (k : string) (v : json) (d : list (string * json)) : list (string * json) :=
  match d with
  | [] => [(k, v)]
  | (k', v') :: d' => if String.eqb k k' then (k, v) :: d' else (k', v') :: set k v d'
  end.

Definition keys (d : list (string * json)) : list string := map fst d.

End Dict.

(** [v[k]] for a string [k]: a [dict] answers or raises [KeyError]; a list
    or a string wants integer indices and the other values have no
    subscript, all [TypeError]. *)
Definition subscript (v : json) (k : string) : result json :=
  match v with
  | JDict d =>
      match Dict.get k d with
      | Some x => Ok x
      | None => Raise (KeyError k)
      end
  | _ => Raise TypeError
  end.

(** [v[k] = x] for a string [k]. *)
Definition setitem (v : json) (k : string) (x : json) : result json :=
  match v with
  | JDict d => Ok (JDict (Dict.set k x d))
  | _ => Raise TypeError
  end.

(** [x > v] for a float [x]: numbers compare by value, [True] and [False]
    as [1] and [0]; anything else is a [TypeError]. *)
Definition float_gt (x : Q) (v : json) : result bool :=
  match v with
  | JInt n => Ok (negb (Qle_bool x (inject_Z n)))
  | JFloat y => Ok (negb (Qle_bool x y))
  | JBool b => Ok (negb (Qle_bool x (inject_Z (if b then 1 else 0))))
  | _ => Raise TypeError
  end.

(** [round(x)] of a float: to the nearest integer, a tie to the even one. *)
Definition py_round (x : Q) : Z :=
  let d := Zpos (Qden x) in
  let f := (Qnum x / d)%Z in
  match (2 * (Qnum x mod d) ?= d)%Z with
  | Lt => f
  | Gt => (f + 1)%Z
  | Eq => if Z.even f then f else (f + 1)%Z
  end.

(** The interpreter's library, as far as the module calls it. *)
Class PyLib : Type := {
  (** [json.loads(s)]; [None] stands for [json.JSONDecodeError]. *)
  json_loads : string -> option json;
  (** [json.dumps(v)]. *)
  json_dumps : json -> string;
  (** [int(s)] of a string; [None] stands for [ValueError]. *)
  int_of_str : string -> option Z;
  (** [base64.b64encode(b).decode('ascii')]. *)
  b64encode : string -> string;
  (** [b.decode('utf-8')]; [None] stands for [UnicodeDecodeError]. *)
  utf8_decode : string -> option string
}.

(** [int(v)]: an [int] is itself, a [bool] is 0 or 1, a float is cut
    towards zero, a string is parsed; [None], lists and dicts are a
    [TypeError]. *)
Definition py_int `{PyLib} (v : json) : result Z :=
  match v with
  | JInt n => Ok n
  | JBool b => Ok (if b then 1 else 0)%Z
  | JFloat x => Ok (Z.quot (Qnum x) (Zpos (Qden x)))
  | JStr s =>
      match int_of_str s with
      | Some n => Ok n
      | None => Raise ValueError
      end
  | _ => Raise TypeError
  end.

(** [s.encode('ascii')] succeeds on bytes below 128 only. *)
Fixpoint is_ascii (s : string) : bool :=
  match s with
  | EmptyString => true
  | String c s' => (N_of_ascii c <? 128)%N && is_ascii s'
  end.

(** ** The world the module runs in *)

(** A form-encoded POST. *)
Record request : Type := {
  req_url : string;
  req_data : list (string * json);
  req_headers : list (string * string)
}.

(** [requests.post] raises a [RequestException] or returns a response,
    of whatever status, with its body. *)
Inductive reply : Type :=
| Unreachable
| Response (content : string).

(** A path names nothing, a text file, or something that cannot be opened
    (a directory, a file without permission, a path below a missing
    directory). *)
Inductive fnode : Type :=
| Absent
| Regular (text : string)
| Blocked.

Record World : Type := {
  (** the successive readings of [time.time()], and how many were taken *)
  clock : nat -> Q;
  ticks : nat;
  fs : string -> fnode;
  (** the answer to the [n]-th request *)
  net : nat -> request -> reply;
  sent : list request;
  stdout : list string
}.

Definition now (w : World) : Q := clock w (ticks w).

Definition tick (w : World) : World :=
  {| clock := clock w; ticks := S (ticks w); fs := fs w;
     net := net w; sent := sent w; stdout := stdout w |}.

Definition put_file (path text : string) (w : World) : World :=
  {| clock := clock w; ticks := ticks w;
     fs := fun p => if String.eqb p path then Regular text else fs w p;
     net := net w; sent := sent w; stdout := stdout w |}.

Definition log_request (r : request) (w : World) : World :=
  {| clock := clock w; ticks := ticks w; fs := fs w;
     net := net w; sent := sent w ++ [r]; stdout := stdout w |}.

Definition put_line (line : string) (w : World) : World :=
  {| clock := clock w; ticks := ticks w; fs := fs w;
     net := net w; sent := sent w; stdout := stdout w ++ [line] |}.

(** ** Computations: state and exceptions *)

Definition M (A : Type) : Type := World -> result A * World.

Definition ret {A} (a : A) : M A := fun w => (Ok a, w).

Definition raise {A} (e : exn) : M A := fun w => (Raise e, w).

Definition bind {A B} (m : M A) (k : A -> M B) : M B :=
  fun w =>
    match m w with
    | (Ok a, w') => k a w'
    | (Raise e, w') => (Raise e, w')
    end.

(** A pure step that may raise. *)
Definition lift {A} (r : result A) : M A := fun w => (r, w).

(** [try: body  except <caught>: handler]. *)
Definition try_except {A} (body : M A) (caught : exn -> bool) (handler : M A) : M A :=
  fun w =>
    match body w with
    | (Ok a, w') => (Ok a, w')
    | (Raise e, w') => if caught e then handler w' else (Raise e, w')
    end.

Declare Scope py_scope.
Delimit Scope py_scope with py.
Notation "x <- m ;; k" := (bind m (fun x => k))
  (at level 61, m at next level, right associativity) : py_scope.
Notation "m ;;; k" := (bind m (fun _ => k))
  (at level 61, right associativity) : py_scope.
Local Open Scope py_scope.

(** [time.time()]. *)
Definition time_time : M Q := fun w => (Ok (now w), tick w).

(** [print(line)]. *)
Definition print (line : string) : M unit := fun w => (Ok tt, put_line line w).

(** [with open(path, 'r') as file: file.read()]. *)
Definition read_file (path : string) : M string :=
  fun w =>
    match fs w path with
    | Regular text => (Ok text, w)
    | _ => (Raise OSError, w)
    end.

(** [with open(path, 'w') as file: file.write(text)]: the file is created
    or emptied, then holds [text]. *)
Definition write_file (path text : string) : M unit :=
  fun w =>
    match fs w path with
    | Blocked => (Raise OSError, w)
    | _ => (Ok tt, put_file path text w)
    end.

(** [requests.post(url, data=data, headers=headers).content]. *)
Definition requests_post (url : string) (data : list (string * json))
    (headers : list (string * string)) : M string :=
  fun w =>
    let r := {| req_url := url; req_data := data; req_headers := headers |} in
    match net w (List.length (sent w)) r with
    | Unreachable => (Raise RequestException, log_request r w)
    | Response content => (Ok content, log_request r w)
    end.

Definition of_option {A} (e : exn) (o : option A) : result A :=
  match o with
  | Some a => Ok a
  | None => Raise e
  end.

(** ** [class SpotifyOAuth] *)

Record SpotifyOAuth : Type := {
  client_id : string;
  client_secret : string;
  redirect : string;
  scopes : string;
  cache : string
}.

Definition oauth_auth_url : string := "https://accounts.spotify.com/authorize".
Definition oauth_token_url : string := "https://accounts.spotify.com/api/token".

Section Methods.

Context `{PyLib}.
Variable self : SpotifyOAuth.

(** [(time.time() + 30) > token_expire]. *)
Definition is_token_expired (token_expire : json) : M bool :=
  t <- time_time ;;
  lift (float_gt (t + 30)%Q token_expire).

(** The ["{client_id}:{client_secret}"] of the header must encode as
    ASCII. *)
Definition encode_header : M (list (string * string)) :=
  let plain := (client_id self ++ ":" ++ client_secret self)%string in
  if is_ascii plain
  then ret [("Authorization", ("Basic " ++ b64encode plain)%string)]
  else raise UnicodeEncodeError.

(** The token is a dict the caller holds too: the method returns it as it
    left it, with [expires_at] set. *)
Definition save_token (token : json) : M json :=
  t <- time_time ;;
  expires_in <- lift (subscript token "expires_in") ;;
  n <- lift (py_int expires_in) ;;
  token' <- lift (setitem token "expires_at" (JInt (py_round t + n))) ;;
  write_file (cache self) (json_dumps token') ;;;
  ret token'.

Definition refresh_token (refresh_token : json) : M json :=
  let body := [("grant_type", JStr "refresh_token");
               ("refresh_token", refresh_token)] in
  headers <- encode_header ;;
  content <- requests_post oauth_token_url body headers ;;
  text <- lift (of_option UnicodeDecodeError (utf8_decode content)) ;;
  token <- lift (of_option JSONDecodeError (json_loads text)) ;;
  save_token token.

Definition retrieve_access_token (code : string) : M json :=
  let body := [("grant_type", JStr "authorization_code");
               ("code", JStr code);
               ("redirect_uri", JStr (redirect self))] in
  headers <- encode_header ;;
  content <- requests_post oauth_token_url body headers ;;
  text <- lift (of_option UnicodeDecodeError (utf8_decode content)) ;;
  token <- lift (of_option JSONDecodeError (json_loads text)) ;;
  save_token token.

(** The [try] block of [get_credentials]. *)
Definition get_credentials_try : M json :=
  text <- read_file (cache self) ;;
  creds <- lift (of_option JSONDecodeError (json_loads text)) ;;
  expires_at <- lift (subscript creds "expires_at") ;;
  expired <- is_token_expired expires_at ;;
  if expired : bool then
    print "OAuth token is expired, refreshing..." ;;;
    rt <- lift (subscript creds "refresh_token") ;;
    refresh_token rt
  else ret creds.

(** [None] is Python's [None]: the cache gave nothing. *)
Definition get_credentials : M (option json) :=
  try_except
    (creds <- get_credentials_try ;; ret (Some creds))
    (fun e => is_IOError e || is_JSONDecodeError e)
    (print "Error: cache does not exist or is empty" ;;; ret None).

Definition get_authorize_url : string :=
  let params := [("client_id", client_id self);
                 ("response_type", "code");
                 ("redirect_uri", redirect self);
                 ("scope", scopes self)] in
  (oauth_auth_url ++ "?" ++ Urllib.urlencode params)%string.

End Methods.

(** ** Vocabulary of the properties *)

(** The value a JSON number compares by. *)
Definition numeric_value (v : json) : option Q :=
  match v with
  | JInt n => Some (inject_Z n)
  | JFloat x => Some x
  | JBool b => Some (inject_Z (if b then 1 else 0))
  | _ => None
  end.

Section Requests.

Context `{PyLib}.
Variable self : SpotifyOAuth.

Definition credentials : string := (client_id self ++ ":" ++ client_secret self)%string.

Definition authorization : list (string * string) :=
  [("Authorization", ("Basic " ++ b64encode credentials)%string)].

(** The POST of [retrieve_access_token]. *)
Definition code_request (code : string) : request :=
  {| req_url := oauth_token_url;
     req_data := [("grant_type", JStr "authorization_code");
                  ("code", JStr code);
                  ("redirect_uri", JStr (redirect self))];
     req_headers := authorization |}.

(** The POST of [refresh_token]. *)
Definition refresh_request (rt : json) : request :=
  {| req_url := oauth_token_url;
     req_data := [("grant_type", JStr "refresh_token"); ("refresh_token", rt)];
     req_headers := authorization |}.

(** The two ways to ask for a token. *)
Inductive grant : Type :=
| AuthorizationCode (code : string)
| RefreshToken (rt : json).

Definition token_method (g : grant) : M json :=
  match g with
  | AuthorizationCode code => retrieve_access_token self code
  | RefreshToken rt => refresh_token self rt
  end.

Definition grant_request (g : grant) : request :=
  match g with
  | AuthorizationCode code => code_request code
  | RefreshToken rt => refresh_request rt
  end.

(** What lets a token request through: ASCII credentials, an answer, in
    UTF-8, that is JSON, a dict whose [expires_in] converts with [int],
    and a cache file that can be opened for writing. *)
Definition accepted (r : request) (w : World) (d : list (string * json)) (n : Z) : Prop :=
  is_ascii credentials = true /\
  fs w (cache self) <> Blocked /\
  exists content text expires_in,
    net w (List.length (sent w)) r = Response content /\
    utf8_decode content = Some text /\
    json_loads text = Some (JDict d) /\
    Dict.get "expires_in" d = Some expires_in /\
    py_int expires_in = Ok n.

End Requests.


(** ** A reference library

    One concrete [PyLib], small but real, to run the methods on concrete
    worlds: a JSON printer in [json.dumps]'s default layout, a JSON reader,
    decimal [int], Base64 and a UTF-8 check. *)

Module RefLib.

(** The double quote. *)
Definition dq : ascii := "034"%char.

Definition is_digit (c : ascii) : bool :=
  let n := N_of_ascii c in ((48 <=? n) && (n <=? 57))%N.

Definition digit_char (n : Z) : ascii := ascii_of_N (48 + Z.to_N n).

Fixpoint digits_fuel (fuel : nat) (n : Z) (acc : string) : string :=
  match fuel with
  | O => acc
  | S fuel' =>
      let acc' := String (digit_char (n mod 10)) acc in
      if (n <? 10)%Z then acc' else digits_fuel fuel' (n / 10) acc'
  end.

(** [str(n)] of an [int]. *)
Definition string_of_Z (n : Z) : string :=
  let a := Z.abs n in
  let body := digits_fuel (S (Z.to_nat (Z.log2 a))) a EmptyString in
  if (n <? 0)%Z then String "-" body else body.

Fixpoint read_digits (s : string) (acc : Z) (count : nat) : Z * nat * string :=
  match s with
  | String c s' =>
      if is_digit c
      then read_digits s' (10 * acc + Z.of_N (N_of_ascii c - 48)) (S count)
      else (acc, count, s)
  | EmptyString => (acc, count, s)
  end.

(** [int(s)] for an optional sign and decimal digits. *)
Definition int_of_string (s : string) : option Z :=
  let '(neg, body) :=
    match s with
    | String "-" s' => (true, s')
    | String "+" s' => (false, s')
    | _ => (false, s)
    end in
  match read_digits body 0 0 with
  | (n, S _, EmptyString) => Some (if neg : bool then - n else n)%Z
  | _ => None
  end.

Fixpoint escape (s : string) : string :=
  match s with
  | EmptyString => EmptyString
  | String c s' =>
      let rest := escape s' in
      if Ascii.eqb c dq then String "\" (String dq rest)
      else if Ascii.eqb c "\" then String "\" (String "\" rest)
      else if Ascii.eqb c "010" then String "\" (String "n" rest)
      else String c rest
  end.

Definition quoted (s : string) : string :=
  String dq (escape s ++ String dq EmptyString)%string.

(** A float with six decimals. *)
Definition string_of_Q (x : Q) : string :=
  let d := Zpos (Qden x) in
  let a := Z.abs (Qnum x) in
  let frac := ((a mod d) * 1000000 / d)%Z in
  let pad := digits_fuel 6 (1000000 + frac) EmptyString in
  let body := (string_of_Z (a / d) ++ "." ++ pad)%string in
  if (Qnum x <? 0)%Z then String "-" body else body.

Fixpoint dumps (v : json) : string :=
  match v with
  | JNull => "null"
  | JBool true => "true"
  | JBool false => "false"
  | JInt n => string_of_Z n
  | JFloat x => string_of_Q x
  | JStr s => quoted s
  | JList l => ("[" ++ Urllib.join ", " (map dumps l) ++ "]")%string
  | JDict d =>
      ("{" ++ Urllib.join ", "
                (map (fun kv => (quoted (fst kv) ++ ": " ++ dumps (snd kv))%string) d)
           ++ "}")%string
  end.

Definition is_space (c : ascii) : bool :=
  Ascii.eqb c " " || Ascii.eqb c "010" || Ascii.eqb c "013" || Ascii.eqb c "009".

Fixpoint skip_ws (s : string) : string :=
  match s with
  | String c s' => if is_space c then skip_ws s' else s
  | EmptyString => s
  end.

(** The characters of a string literal after its opening quote. *)
Fixpoint read_string (s : string) : option (string * string) :=
  match s with
  | EmptyString => None
  | String c s' =>
      if Ascii.eqb c dq then Some (EmptyString, s')
      else if Ascii.eqb c "\" then
        match s' with
        | String e s'' =>
            let ch := if Ascii.eqb e "n" then Some "010"%char
                      else if Ascii.eqb e dq || Ascii.eqb e "\" || Ascii.eqb e "/"
                      then Some e else None in
            match ch, read_string s'' with
            | Some x, Some (t, r) => Some (String x t, r)
            | _, _ => None
            end
        | EmptyString => None
        end
      else
        match read_string s' with
        | Some (t, r) => Some (String c t, r)
        | None => None
        end
  end.

Definition read_number (s : string) : option (json * string) :=
  let '(neg, body) :=
    match s with
    | String "-" s' => (true, s')
    | _ => (false, s)
    end in
  let sign (n : Z) := if neg : bool then (- n)%Z else n in
  match read_digits body 0 0 with
  | (_, O, _) => None
  | (n, S _, String "." r) =>
      match read_digits r 0 0 with
      | (_, O, _) => None
      | (m, S k as places, r') =>
          let scale := (10 ^ Z.of_nat places)%Z in
          Some (JFloat (Qmake (sign (n * scale + m)%Z) (Z.to_pos scale)), r')
      end
  | (n, S _, r) => Some (JInt (sign n), r)
  end.

Fixpoint read_value (fuel : nat) (s : string) : option (json * string) :=
  match fuel with
  | O => None
  | S fuel' =>
      let s := skip_ws s in
      match Str.strip_prefix "null" s, Str.strip_prefix "true" s, Str.strip_prefix "false" s with
      | Some r, _, _ => Some (JNull, r)
      | _, Some r, _ => Some (JBool true, r)
      | _, _, Some r => Some (JBool false, r)
      | _, _, _ =>
          match s with
          | String "034" r =>
              match read_string r with
              | Some (t, r') => Some (JStr t, r')
              | None => None
              end
          | String "[" r =>
              match skip_ws r with
              | String "]" r' => Some (JList [], r')
              | _ =>
                  match read_items fuel' r with
                  | Some (l, r') => Some (JList l, r')
                  | None => None
                  end
              end
          | String "{" r =>
              match skip_ws r with
              | String "}" r' => Some (JDict [], r')
              | _ =>
                  match read_members fuel' r with
                  | Some (d, r') =>
                      Some (JDict (fold_left (fun acc kv => Dict.set (fst kv) (snd kv) acc) d []), r')
                  | None => None
                  end
              end
          | _ => read_number s
          end
      end
  end

with read_items (fuel : nat) (s : string) : option (list json * string) :=
  match fuel with
  | O => None
  | S fuel' =>
      match read_value fuel' s with
      | None => None
      | Some (v, r) =>
          match skip_ws r with
          | String "]" r' => Some ([v], r')
          | String "," r' =>
              match read_items fuel' r' with
              | Some (l, r'') => Some (v :: l, r'')
              | None => None
              end
          | _ => None
          end
      end
  end

with read_members (fuel : nat) (s : string) : option (list (string * json) * string) :=
  match fuel with
  | O => None
  | S fuel' =>
      match skip_ws s with
      | String "034" r =>
          match read_string r with
          | None => None
          | Some (k, r1) =>
              match skip_ws r1 with
              | String ":" r2 =>
                  match read_value fuel' r2 with
                  | None => None
                  | Some (v, r3) =>
                      match skip_ws r3 with
                      | String "}" r4 => Some ([(k, v)], r4)
                      | String "," r4 =>
                          match read_members fuel' r4 with
                          | Some (d, r5) => Some ((k, v) :: d, r5)
                          | None => None
                          end
                      | _ => None
                      end
                  end
              | _ => None
              end
          end
      | _ => None
      end
  end.

Definition loads (s : string) : option json :=
  match read_value (2 * String.length s + 2) s with
  | Some (v, r) =>
      match skip_ws r with
      | EmptyString => Some v
      | _ => None
      end
  | None => None
  end.

Definition b64_alphabet : string :=
  "ABCDEFGHIJKLMNOPQRSTUVWXYZabcdefghijklmnopqrstuvwxyz0123456789+/".

Definition b64_char (n : N) : ascii :=
  match String.get (N.to_nat n) b64_alphabet with
  | Some c => c
  | None => "="%char
  end.

Fixpoint b64 (s : string) : string :=
  match s with
  | EmptyString => EmptyString
  | String a EmptyString =>
      let x := N_of_ascii a in
      String (b64_char (x / 4)) (String (b64_char (x mod 4 * 16)) "==")
  | String a (String b EmptyString) =>
      let x := N_of_ascii a in
      let y := N_of_ascii b in
      String (b64_char (x / 4))
        (String (b64_char (x mod 4 * 16 + y / 16))
           (String (b64_char (y mod 16 * 4)) "="))
  | String a (String b (String c rest)) =>
      let x := N_of_ascii a in
      let y := N_of_ascii b in
      let z := N_of_ascii c in
      String (b64_char (x / 4))
        (String (b64_char (x mod 4 * 16 + y / 16))
           (String (b64_char (y mod 16 * 4 + z / 64))
              (String (b64_char (z mod 64)) (b64 rest))))
  end%N.

(** Lead bytes announce their continuation bytes and get them. *)
Fixpoint utf8_ok (need : nat) (s : string) : bool :=
  match s with
  | EmptyString => Nat.eqb need 0
  | String c s' =>
      let n := N_of_ascii c in
      match need with
      | O =>
          if (n <? 128)%N then utf8_ok 0 s'
          else if ((194 <=? n) && (n <=? 223))%N then utf8_ok 1 s'
          else if ((224 <=? n) && (n <=? 239))%N then utf8_ok 2 s'
          else if ((240 <=? n) && (n <=? 244))%N then utf8_ok 3 s'
          else false
      | S k => if ((128 <=? n) && (n <=? 191))%N then utf8_ok k s' else false
      end
  end.

#[export] Instance lib : PyLib := {
  json_loads := loads;
  json_dumps := dumps;
  int_of_str := int_of_string;
  b64encode := b64;
  utf8_decode := fun b => if utf8_ok 0 b then Some b else None
}.

End RefLib.

(** ** Sample configuration and worlds *)

Module Sample.

Definition app : SpotifyOAuth :=
  {| client_id := "id"; client_secret := "secret";
     redirect := "https://app/cb";
     scopes := "user-read-email playlist-read";
     cache := "/tmp/spotirec" |}.

Definition fresh_token : json :=
  JDict [("access_token", JStr "AT2"); ("token_type", JStr "Bearer");
         ("scope", JStr "s"); ("expires_in", JInt 3600)].

Definition response : string := RefLib.dumps fresh_token.

(** [fresh_token] saved when the clock reads 1000.4. *)
Definition stamped_token : json :=
  JDict [("access_token", JStr "AT2"); ("token_type", JStr "Bearer");
         ("scope", JStr "s"); ("expires_in", JInt 3600); ("expires_at", JInt 4600)].

Definition cached (expires_at : Z) : string :=
  RefLib.dumps (JDict [("access_token", JStr "AT1"); ("refresh_token", JStr "RT1");
                       ("expires_in", JInt 3600); ("expires_at", JInt expires_at)]).

(** The clock reads 1000.4 then 1001.5 then 1002; the server answers every
    request with [body]; [files] is the file system. *)
Definition world (files : string -> fnode) (body : reply) : World :=
  {| clock := fun n => match n with
                       | O => (10004 # 10)%Q
                       | 1%nat => (10015 # 10)%Q
                       | _ => (1002 # 1)%Q
                       end;
     ticks := 0;
     fs := files;
     net := fun _ _ => body;
     sent := [];
     stdout := [] |}.


Definition error_body : json :=
  JDict [("error", JStr "invalid_grant"); ("error_description", JStr "Invalid code")].

Definition no_files : string -> fnode := fun _ => Absent.


Definition one_file (path text : string) : string -> fnode :=
  fun p => if String.eqb p path then Regular text else Absent.

(** A fresh cache, a stale cache, and a first run without one; the
    server answers with [fresh_token]. *)
Definition fresh_world : World :=
  world (one_file "/tmp/spotirec" (cached 5000)) (Response response).

Definition stale_world : World :=
  world (one_file "/tmp/spotirec" (cached 1010)) (Response response).

Definition first_run : World := world no_files (Response response).

End Sample.

(** ** Vocabulary of further properties *)

(** Every character of [s] is one of [allowed]. *)
Fixpoint all_in (allowed s : string) : bool :=
  match s with
  | EmptyString => true
  | String c s' => Urllib.mem c allowed && all_in allowed s'
  end.

(** The characters an authorization URL is made of: the unreserved ones,
    the delimiters of the endpoint and of the query, [%] and [+]. *)
Definition url_alphabet : string := (Urllib.always_safe ++ ":/?&=%+")%string.

(** More sample data: a configuration whose secret holds a byte above
    127, caches that are JSON but no token, and answers that are no JSON. *)
Module Sample2.

Definition accented : SpotifyOAuth :=
  {| client_id := "id"; client_secret := String "233"%char "secret";
     redirect := "https://app/cb"; scopes := "s"; cache := "/tmp/spotirec" |}.

Definition cache_with (text : string) (body : reply) : World :=
  Sample.world (Sample.one_file "/tmp/spotirec" text) body.

Definition list_cache : string := "[]".

Definition odd_cache : string :=
  RefLib.dumps (JDict [("refresh_token", JStr "RT1"); ("expires_at", JStr "soon")]).

Definition html : string := "<html>".

Definition latin1 : string := String "255"%char "x".


Definition short_token : list (string * json) :=
  [("access_token", JStr "AT4"); ("expires_in", JInt 20)].


Definition short_stamped : json :=
  JDict [("access_token", JStr "AT4"); ("expires_in", JInt 20);
         ("expires_at", JInt 1020)].


End Sample2.

(** * Properties *)

(** ** Facts on strings *)

Module StrFacts.
Import Str.

Lemma app_nil_r (s : string) : (s ++ "")%string = s.
Proof. induction s as [|c s IH]; simpl; congruence. Qed.

Lemma app_assoc (a b c : string) : ((a ++ b) ++ c)%string = (a ++ b ++ c)%string.
Proof. induction a as [|x a IH]; simpl; congruence. Qed.

Lemma length_app (a b : string) :
  String.length (a ++ b) = String.length a + String.length b.
Proof. induction a as [|x a IH]; simpl; congruence. Qed.

Lemma strip_prefix_app (p r : string) : strip_prefix p (p ++ r) = Some r.
Proof.
  induction p as [|c p IH]; simpl; [reflexivity|].
  now rewrite Ascii.eqb_refl.
Qed.

Lemma strip_prefix_some (p s r : string) :
  strip_prefix p s = Some r -> s = (p ++ r)%string.
Proof.
  revert s; induction p as [|c p IH]; intros s; simpl.
  - congruence.
  - destruct s as [|d s]; [discriminate|].
    destruct (Ascii.eqb_spec c d) as [->|]; [|discriminate].
    intros E. now rewrite (IH _ E).
Qed.

(** [partition] finds an occurrence, and the leftmost one. *)
Lemma partition_some (sep s a b : string) :
  partition sep s = Some (a, b) ->
  s = (a ++ sep ++ b)%string /\
  forall a' b', s = (a' ++ sep ++ b')%string -> String.length a <= String.length a'.
Proof.
  revert a b; induction s as [|c s IH]; intros a b; simpl.
  - destruct (strip_prefix sep "") as [r|] eqn:E; [|discriminate].
    intros [= <- <-]. split; [exact (strip_prefix_some _ _ _ E)|intros; simpl; lia].
  - destruct (strip_prefix sep (String c s)) as [r|] eqn:E.
    + intros [= <- <-]. split; [exact (strip_prefix_some _ _ _ E)|intros; simpl; lia].
    + destruct (partition sep s) as [[a0 b0]|] eqn:P; [|discriminate].
      intros [= <- <-]. destruct (IH _ _ eq_refl) as [-> Hmin]. split; [reflexivity|].
      intros [|c' a'] b' Hs; simpl in Hs.
      * rewrite Hs, strip_prefix_app in E. discriminate.
      * injection Hs as _ Hs. simpl. apply le_n_S. eapply Hmin, Hs.
Qed.

Lemma partition_none (sep s : string) :
  partition sep s = None <-> ~ occurs sep s.
Proof.
  split.
  - induction s as [|c s IH]; simpl.
    + destruct (strip_prefix sep "") eqn:E; [discriminate|].
      intros _ (a & b & Hs). destruct a; simpl in Hs.
      * rewrite Hs, strip_prefix_app in E. discriminate.
      * discriminate.
    + destruct (strip_prefix sep (String c s)) eqn:E; [discriminate|].
      destruct (partition sep s) as [[a0 b0]|] eqn:P; [discriminate|].
      intros _ (a & b & Hs). destruct a as [|c' a]; simpl in Hs.
      * rewrite Hs, strip_prefix_app in E. discriminate.
      * injection Hs as _ Hs. apply IH; [reflexivity|]. now exists a, b.
  - intros Hno. destruct (partition sep s) as [[a b]|] eqn:P; [|reflexivity].
    exfalso. apply Hno. exists a, b. now apply partition_some.
Qed.

(** Conversely the leftmost occurrence is the one [partition] finds. *)
Lemma partition_first (sep a b : string) :
  (forall a' b', (a ++ sep ++ b)%string = (a' ++ sep ++ b')%string ->
                 String.length a <= String.length a') ->
  partition sep (a ++ sep ++ b) = Some (a, b).
Proof.
  induction a as [|c a IH]; intros Hmin.
  - simpl ((""%string ++ _)%string).
    destruct (sep ++ b)%string eqn:E; simpl; rewrite <- E, strip_prefix_app; reflexivity.
  - simpl. destruct (strip_prefix sep (String c (a ++ sep ++ b))) as [r|] eqn:E.
    + apply strip_prefix_some in E.
      specialize (Hmin ""%string r E). simpl in Hmin. lia.
    + rewrite IH; [reflexivity|].
      intros a' b' Hs. specialize (Hmin (String c a') b'). simpl in Hmin.
      rewrite Hs in Hmin. specialize (Hmin eq_refl). lia.
Qed.

Lemma partition_shorter (sep s a b : string) :
  sep <> ""%string -> partition sep s = Some (a, b) ->
  String.length b < String.length s.
Proof.
  intros Hsep P. apply partition_some in P as [-> _].
  rewrite !length_app. destruct sep; [congruence|simpl; lia].
Qed.

Lemma split_fuel_enough (sep : string) :
  sep <> ""%string ->
  forall n s, String.length s <= n ->
              split_fuel n sep s = split_fuel (String.length s) sep s.
Proof.
  intros Hsep n. induction n as [n IH] using lt_wf_ind. intros s Hn.
  destruct n as [|n].
  - replace (String.length s) with 0 by lia. reflexivity.
  - destruct (String.length s) as [|m] eqn:L.
    + destruct s; [|discriminate]. cbn [split_fuel].
      destruct (partition sep "") as [[a b]|] eqn:P; [|reflexivity].
      apply (partition_shorter _ _ _ _ Hsep) in P. simpl in P. lia.
    + cbn [split_fuel]. destruct (partition sep s) as [[a b]|] eqn:P; [|reflexivity].
      apply (partition_shorter _ _ _ _ Hsep) in P.
      rewrite (IH n) by lia. rewrite (IH m) by lia. reflexivity.
Qed.

(** The equation of [split]: it does not depend on the fuel. *)
Lemma split_unfold (sep s : string) :
  sep <> ""%string ->
  split sep s = match partition sep s with
                | None => [s]
                | Some (a, b) => a :: split sep b
                end.
Proof.
  intros Hsep. unfold split.
  destruct (String.length s) as [|m] eqn:L.
  - destruct s; [|discriminate]. cbn [split_fuel].
    destruct (partition sep "") as [[a b]|] eqn:P; [|reflexivity].
    apply (partition_shorter _ _ _ _ Hsep) in P. simpl in P. lia.
  - cbn [split_fuel]. destruct (partition sep s) as [[a b]|] eqn:P; [|reflexivity].
    apply (partition_shorter _ _ _ _ Hsep) in P.
    rewrite (split_fuel_enough sep Hsep m b) by lia. reflexivity.
Qed.

Lemma split_head (sep s : string) :
  sep <> ""%string -> nth_error (split sep s) 0 = Some (upto sep s).
Proof.
  intros Hsep. rewrite split_unfold by assumption. unfold upto.
  now destruct (partition sep s) as [[a b]|].
Qed.

(** [upto] in words: without an occurrence it is the whole string, and
    with one it is what stands before the leftmost. *)
Lemma upto_absent (sep s : string) : ~ occurs sep s -> upto sep s = s.
Proof. intros Hno. unfold upto. now rewrite (proj2 (partition_none sep s) Hno). Qed.

Lemma upto_first (sep a b : string) :
  (forall a' b', (a ++ sep ++ b)%string = (a' ++ sep ++ b')%string ->
                 String.length a <= String.length a') ->
  upto sep (a ++ sep ++ b) = a.
Proof. intros Hmin. unfold upto. now rewrite partition_first. Qed.

End StrFacts.

(** ** [parse_response_code] *)

Lemma code_marker_nonempty : code_marker <> ""%string.
Proof. discriminate. Qed.

Lemma ampersand_nonempty : "&"%string <> ""%string.
Proof. discriminate. Qed.

(** The two [split]s, one cut each: the piece after the leftmost marker,
    cut where the marker comes again, then cut at the leftmost [&]. *)
Lemma parse_response_code_eq (url : string) :
  parse_response_code url =
  match Str.partition code_marker url with
  | None => None
  | Some (_, rest) => Some (Str.upto "&" (Str.upto code_marker rest))
  end.
Proof.
  unfold parse_response_code.
  rewrite (StrFacts.split_unfold _ url code_marker_nonempty).
  destruct (Str.partition code_marker url) as [[pre rest]|]; [|reflexivity].
  change (nth_error (pre :: Str.split code_marker rest) 1)
    with (nth_error (Str.split code_marker rest) 0).
  rewrite (StrFacts.split_head _ rest code_marker_nonempty).
  now rewrite (StrFacts.split_head _ _ ampersand_nonempty).
Qed.

(** C4 (amended).  [parse_response_code] gives [None], and raises
    nothing, exactly when [?code=] does not occur in the URL.  When it
    occurs, the result is the text after its leftmost occurrence, up to
    the next [?code=] if there is one, and of that the part before its
    first [&] if there is one.  So [?code=ABC123&state=xyz] gives
    [ABC123], and [?state=xyz&code=ABC] gives [None]. *)
Theorem parse_response_code_contract :
  (forall url, parse_response_code url = None <-> ~ Str.occurs "?code=" url) /\
  (forall url pre rest,
      url = (pre ++ "?code=" ++ rest)%string ->
      (forall pre' rest', url = (pre' ++ "?code=" ++ rest')%string ->
                          String.length pre <= String.length pre') ->
      parse_response_code url = Some (Str.upto "&" (Str.upto "?code=" rest))) /\
  parse_response_code "https://app/cb?code=ABC123&state=xyz" = Some "ABC123"%string /\
  parse_response_code "https://app/cb?state=xyz" = None /\
  parse_response_code "https://app/cb?state=xyz&code=ABC" = None.
Proof.
  split; [|split; [|repeat split]].
  - intros url. rewrite parse_response_code_eq, <- StrFacts.partition_none.
    fold code_marker.
    destruct (Str.partition code_marker url) as [[pre rest]|]; split;
      congruence.
  - intros url pre rest -> Hmin. rewrite parse_response_code_eq.
    fold code_marker in *. now rewrite StrFacts.partition_first.
Qed.

Lemma parse_response_code_contract_witness :
  parse_response_code "https://app/cb?code=A?code=B&x=1" = Some "A"%string.
Proof.
  destruct parse_response_code_contract as (_ & Hsome & _).
  apply (Hsome _ "https://app/cb"%string "A?code=B&x=1"%string); [reflexivity|].
  apply (StrFacts.partition_some "?code=" _ "https://app/cb" "A?code=B&x=1").
  reflexivity.
Defined.

(** C4 as stated fails where the marker comes twice: the specification
    reads on to the [&], the code stops at the second marker. *)
Lemma parse_response_code_stops_at_marker :
  parse_response_code "https://app/cb?code=A?code=B&x=1" = Some "A"%string /\
  extract_code_spec "https://app/cb?code=A?code=B&x=1" = Some "A?code=B"%string /\
  ~ (forall url, parse_response_code url = extract_code_spec url).
Proof.
  split; [reflexivity|split; [reflexivity|]].
  intros Hall. specialize (Hall "https://app/cb?code=A?code=B&x=1"%string).
  vm_compute in Hall. discriminate.
Qed.

(** ** [get_authorize_url] *)

Module UrllibFacts.
Import Urllib.

Lemma mem_app (c : ascii) (a b : string) : mem c (a ++ b) = mem c a || mem c b.
Proof. induction a as [|x a IH]; simpl; [reflexivity|]. now rewrite IH, orb_assoc. Qed.

Lemma replace_char_app (x y : ascii) (a b : string) :
  replace_char x y (a ++ b) = (replace_char x y a ++ replace_char x y b)%string.
Proof. induction a as [|c a IH]; simpl; congruence. Qed.

(** Case analysis on the 256 bytes. *)
Ltac each_byte c := destruct c as [[|] [|] [|] [|] [|] [|] [|] [|]].

Lemma quote_space_byte (c : ascii) :
  replace_char " " "+"
    (if mem c always_safe || mem c " " then String c "" else percent c)
  = plus_encode c.
Proof. each_byte c; reflexivity. Qed.

Lemma quote_plain_byte (c : ascii) :
  Ascii.eqb c " " = false ->
  (if mem c always_safe || mem c "" then String c "" else percent c) = plus_encode c.
Proof. each_byte c; intros E; try reflexivity; discriminate E. Qed.

(** [quote_plus] works byte by byte. *)
Lemma quote_plus_flat_map (s : string) : quote_plus s = flat_map plus_encode s.
Proof.
  unfold quote_plus. destruct (mem " " s) eqn:Hsp.
  - clear Hsp. induction s as [|c s IH]; [reflexivity|].
    cbn [quote flat_map]. now rewrite replace_char_app, quote_space_byte, IH.
  - induction s as [|c s IH]; [reflexivity|].
    cbn [mem] in Hsp. apply orb_false_elim in Hsp as [Hc Hs].
    cbn [quote flat_map]. rewrite IH by assumption.
    rewrite quote_plain_byte; [reflexivity|].
    now rewrite Ascii.eqb_sym.
Qed.

Lemma unquote_plus_byte (c : ascii) (t : string) :
  unquote_plus (plus_encode c ++ t) = String c (unquote_plus t).
Proof. each_byte c; reflexivity. Qed.

Lemma unquote_byte (c : ascii) (t : string) :
  unquote (plus_encode c ++ t) = String (if Ascii.eqb c " " then "+"%char else c) (unquote t).
Proof. each_byte c; reflexivity. Qed.

(** Form decoding undoes form encoding. *)
Lemma unquote_plus_quote_plus (s : string) : unquote_plus (quote_plus s) = s.
Proof.
  rewrite quote_plus_flat_map.
  induction s as [|c s IH]; [reflexivity|].
  cbn [flat_map]. now rewrite unquote_plus_byte, IH.
Qed.

(** Percent decoding alone leaves the [+] of a space. *)
Lemma unquote_quote_plus (s : string) : unquote (quote_plus s) = replace_char " " "+" s.
Proof.
  rewrite quote_plus_flat_map.
  induction s as [|c s IH]; [reflexivity|].
  cbn [flat_map replace_char]. now rewrite unquote_byte, IH.
Qed.

Lemma replace_char_id (x y : ascii) (s : string) :
  replace_char x y s = s <-> mem x s = false \/ x = y.
Proof.
  induction s as [|c s IH]; simpl.
  - split; auto.
  - rewrite (Ascii.eqb_sym x c). destruct (Ascii.eqb_spec c x) as [->|Hne]; simpl.
    + split.
      * intros [= -> _]. now right.
      * intros [Hm | ->]; [discriminate Hm|]. f_equal. apply IH. now right.
    + split.
      * intros [= E]. now apply IH.
      * intros Hx. f_equal. now apply IH.
Qed.

(** No [&], [=] or [?] comes out of [quote_plus]. *)
Lemma plus_encode_clean (c : ascii) :
  mem "&" (plus_encode c) = false /\ mem "=" (plus_encode c) = false.
Proof. each_byte c; split; reflexivity. Qed.

Lemma quote_plus_clean (s : string) :
  mem "&" (quote_plus s) = false /\ mem "=" (quote_plus s) = false.
Proof.
  rewrite quote_plus_flat_map.
  induction s as [|c s [IH1 IH2]]; [split; reflexivity|].
  cbn [flat_map]. rewrite !mem_app, IH1, IH2.
  destruct (plus_encode_clean c) as [-> ->]. split; reflexivity.
Qed.

(** Cutting at a character that the left part does not hold. *)
Lemma partition_char_some (c : ascii) (a b : string) :
  mem c a = false ->
  Str.partition (String c "") (a ++ String c b) = Some (a, b).
Proof.
  induction a as [|x a IH]; simpl; intros Hc.
  - now rewrite Ascii.eqb_refl.
  - apply orb_false_elim in Hc as [Hx Ha].
    rewrite Hx, (IH Ha). reflexivity.
Qed.

Lemma partition_char_none (c : ascii) (a : string) :
  mem c a = false -> Str.partition (String c "") a = None.
Proof.
  induction a as [|x a IH]; simpl; intros Hc; [reflexivity|].
  apply orb_false_elim in Hc as [Hx Ha].
  rewrite Hx, (IH Ha). reflexivity.
Qed.

Lemma split_join (l : list string) :
  l <> [] -> (forall x, In x l -> mem "&" x = false) ->
  Str.split "&" (join "&" l) = l.
Proof.
  induction l as [|x l IH]; [congruence|]. intros _ Hl.
  rewrite StrFacts.split_unfold by discriminate.
  destruct l as [|y l].
  - cbn [join]. rewrite partition_char_none; [reflexivity|]. apply Hl. now left.
  - change (join "&" (x :: y :: l)) with (x ++ String "&" (join "&" (y :: l)))%string.
    rewrite partition_char_some by (apply Hl; now left).
    rewrite IH; [reflexivity|discriminate|].
    intros z Hz. apply Hl. now right.
Qed.

Lemma parse_pair_eq (k v : string) :
  mem "=" k = false -> parse_pair (k ++ "=" ++ v) = (k, v).
Proof.
  intros Hk. unfold parse_pair.
  change (k ++ "=" ++ v)%string with (k ++ String "=" v)%string.
  now rewrite partition_char_some.
Qed.

(** A reader of [base?urlencode(params)] finds the encoded pairs again. *)
Lemma query_params_urlencode (base : string) (params : list (string * string)) :
  mem "?" base = false -> params <> [] ->
  query_params (base ++ "?" ++ urlencode params) =
  map (fun kv => (quote_plus (fst kv), quote_plus (snd kv))) params.
Proof.
  intros Hbase Hne. unfold query_params, query_of.
  change (base ++ "?" ++ urlencode params)%string
    with (base ++ String "?" (urlencode params))%string.
  rewrite partition_char_some by assumption.
  unfold urlencode. rewrite split_join.
  - rewrite map_map. apply map_ext. intros [k v]. cbn [fst snd].
    apply parse_pair_eq, quote_plus_clean.
  - destruct params; [congruence|discriminate].
  - intros x Hx. apply in_map_iff in Hx as ([k v] & <- & _). cbn [fst snd].
    rewrite !mem_app. destruct (quote_plus_clean k) as [-> _].
    destruct (quote_plus_clean v) as [-> _]. reflexivity.
Qed.

End UrllibFacts.

(** The URL, spelled out. *)
Lemma get_authorize_url_eq (self : SpotifyOAuth) :
  get_authorize_url self =
  ("https://accounts.spotify.com/authorize?client_id=" ++ Urllib.quote_plus (client_id self)
   ++ "&response_type=code&redirect_uri=" ++ Urllib.quote_plus (redirect self)
   ++ "&scope=" ++ Urllib.quote_plus (scopes self))%string.
Proof.
  unfold get_authorize_url, Urllib.urlencode.
  cbn [map fst snd Urllib.join].
  change (Urllib.quote_plus "client_id") with "client_id"%string.
  change (Urllib.quote_plus "response_type") with "response_type"%string.
  change (Urllib.quote_plus "code") with "code"%string.
  change (Urllib.quote_plus "redirect_uri") with "redirect_uri"%string.
  change (Urllib.quote_plus "scope") with "scope"%string.
  rewrite !StrFacts.app_assoc. reflexivity.
Qed.

Lemma get_authorize_url_params (self : SpotifyOAuth) :
  Urllib.query_params (get_authorize_url self) =
  [("client_id", Urllib.quote_plus (client_id self));
   ("response_type", "code");
   ("redirect_uri", Urllib.quote_plus (redirect self));
   ("scope", Urllib.quote_plus (scopes self))]%string.
Proof.
  unfold get_authorize_url.
  rewrite UrllibFacts.query_params_urlencode by (reflexivity || discriminate).
  reflexivity.
Qed.

(** C8 (amended).  [get_authorize_url] is a function of the
    configuration alone.  Its result is the authorization endpoint
    followed by exactly the parameters [client_id], [response_type=code],
    [redirect_uri] and [scope], in this order, each value encoded by
    [quote_plus]: unreserved characters kept, a space written [+], every
    other byte [%XX].  Decoding the [scope] parameter the same way ([+]
    to space, then percent-decoding) gives the configured scope back;
    percent-decoding alone gives it back exactly when the scope holds no
    space. *)
Theorem get_authorize_url_contract (self : SpotifyOAuth) :
  let url := get_authorize_url self in
  url = ("https://accounts.spotify.com/authorize?client_id="
         ++ Urllib.quote_plus (client_id self)
         ++ "&response_type=code&redirect_uri=" ++ Urllib.quote_plus (redirect self)
         ++ "&scope=" ++ Urllib.quote_plus (scopes self))%string /\
  Urllib.query_params url =
    [("client_id", Urllib.quote_plus (client_id self));
     ("response_type", "code");
     ("redirect_uri", Urllib.quote_plus (redirect self));
     ("scope", Urllib.quote_plus (scopes self))]%string /\
  Urllib.quote_plus (scopes self) = Urllib.flat_map Urllib.plus_encode (scopes self) /\
  option_map Urllib.unquote_plus (Urllib.assoc "client_id" (Urllib.query_params url))
    = Some (client_id self) /\
  option_map Urllib.unquote_plus (Urllib.assoc "redirect_uri" (Urllib.query_params url))
    = Some (redirect self) /\
  option_map Urllib.unquote_plus (Urllib.assoc "scope" (Urllib.query_params url))
    = Some (scopes self) /\
  (option_map Urllib.unquote (Urllib.assoc "scope" (Urllib.query_params url))
    = Some (scopes self) <-> Urllib.mem " " (scopes self) = false).
Proof.
  cbv zeta. split; [apply get_authorize_url_eq|].
  rewrite get_authorize_url_params. cbn [Urllib.assoc String.eqb Ascii.eqb Bool.eqb option_map].
  rewrite !UrllibFacts.unquote_plus_quote_plus, UrllibFacts.unquote_quote_plus.
  repeat split; auto using UrllibFacts.quote_plus_flat_map.
  - intros [= E]. apply UrllibFacts.replace_char_id in E as [E|E]; [exact E|discriminate E].
  - intros E. f_equal. apply UrllibFacts.replace_char_id. now left.
Qed.

(** C8 as stated fails on the specification's own scope: its space is
    written [+], not [%20], and percent-decoding leaves the [+]. *)
Lemma get_authorize_url_plus_for_space :
  let url := get_authorize_url Sample.app in
  scopes Sample.app = "user-read-email playlist-read"%string /\
  Urllib.assoc "scope" (Urllib.query_params url) = Some "user-read-email+playlist-read"%string /\
  option_map Urllib.unquote (Urllib.assoc "scope" (Urllib.query_params url))
    <> Some (scopes Sample.app).
Proof. cbv zeta. split; [reflexivity|split; [reflexivity|]]. vm_compute. discriminate. Qed.

(** ** Numbers *)

(** [round] stays within a half of its argument. *)
Lemma py_round_near (x : Q) :
  (x - (1 # 2) <= inject_Z (py_round x) /\ inject_Z (py_round x) <= x + (1 # 2))%Q.
Proof.
  destruct x as [n d]. unfold py_round, Qle, Qminus.
  cbn [Qplus Qopp Qnum Qden inject_Z].
  pose proof (Z.div_mod n (Zpos d) ltac:(lia)) as Hdm.
  pose proof (Z.mod_pos_bound n (Zpos d) ltac:(lia)) as Hr.
  set (f := (n / Zpos d)%Z) in *. set (r := (n mod Zpos d)%Z) in *.
  clearbody f r.
  destruct (Z.compare_spec (2 * r) (Zpos d)) as [E|L|G];
    [destruct (Z.even f)| |];
    rewrite ?Pos2Z.inj_mul; nia.
Qed.

Lemma float_gt_numeric (x v : Q) (j : json) :
  numeric_value j = Some v ->
  exists b, float_gt x j = Ok b /\ (b = true <-> (v < x)%Q).
Proof.
  assert (Hcmp : forall y, negb (Qle_bool x y) = true <-> (y < x)%Q).
  { intros y. rewrite negb_true_iff, <- not_true_iff_false, Qle_bool_iff.
    split; [apply Qnot_le_lt|apply Qlt_not_le]. }
  destruct j; intros [= <-]; eexists; (split; [reflexivity|apply Hcmp]).
Qed.

(** ** The methods, run *)

Section Runs.

Context `{PyLib}.
Variable self : SpotifyOAuth.

Lemma is_token_expired_run (x : json) (w : World) :
  is_token_expired x w = (float_gt (now w + 30)%Q x, tick w).
Proof. reflexivity. Qed.

Lemma save_token_run (token : json) (w : World) :
  save_token self token w =
  match subscript token "expires_in" with
  | Raise e => (Raise e, tick w)
  | Ok expires_in =>
      match py_int expires_in with
      | Raise e => (Raise e, tick w)
      | Ok n =>
          match setitem token "expires_at" (JInt (py_round (now w) + n)) with
          | Raise e => (Raise e, tick w)
          | Ok token' =>
              match fs w (cache self) with
              | Blocked => (Raise OSError, tick w)
              | _ => (Ok token', put_file (cache self) (json_dumps token') (tick w))
              end
          end
      end
  end.
Proof.
  unfold save_token, bind, lift, time_time, write_file, ret.
  destruct (subscript token "expires_in") as [expires_in|e]; [|reflexivity].
  destruct (py_int expires_in) as [n|e]; [|reflexivity].
  destruct (setitem token "expires_at" _) as [token'|e]; [|reflexivity].
  cbn [tick fs]. destruct (fs w (cache self)); reflexivity.
Qed.

(** Either token method, once its request [r] is fixed. *)
Lemma token_call_run (r : request) (w : World) :
  (headers <- encode_header self ;;
   content <- requests_post (req_url r) (req_data r) headers ;;
   text <- lift (of_option UnicodeDecodeError (utf8_decode content)) ;;
   token <- lift (of_option JSONDecodeError (json_loads text)) ;;
   save_token self token)%py w =
  if is_ascii (credentials self) then
    let r' := {| req_url := req_url r; req_data := req_data r;
                 req_headers := authorization self |} in
    match net w (List.length (sent w)) r' with
    | Unreachable => (Raise RequestException, log_request r' w)
    | Response content =>
        match utf8_decode content with
        | None => (Raise UnicodeDecodeError, log_request r' w)
        | Some text =>
            match json_loads text with
            | None => (Raise JSONDecodeError, log_request r' w)
            | Some token => save_token self token (log_request r' w)
            end
        end
    end
  else (Raise UnicodeEncodeError, w).
Proof.
  unfold bind at 1. unfold encode_header. fold (credentials self).
  destruct (is_ascii (credentials self)); [|reflexivity].
  unfold ret. unfold bind at 1. unfold requests_post. fold (authorization self).
  destruct (net w _ _) as [|content]; [reflexivity|].
  unfold bind at 1. unfold lift at 1.
  destruct (utf8_decode content) as [text|]; [|reflexivity].
  cbn [of_option]. unfold bind at 1. unfold lift at 1.
  destruct (json_loads text) as [token|]; reflexivity.
Qed.

Lemma retrieve_access_token_run (code : string) (w : World) :
  retrieve_access_token self code w =
  let r := code_request self code in
  if is_ascii (credentials self) then
    match net w (List.length (sent w)) r with
    | Unreachable => (Raise RequestException, log_request r w)
    | Response content =>
        match utf8_decode content with
        | None => (Raise UnicodeDecodeError, log_request r w)
        | Some text =>
            match json_loads text with
            | None => (Raise JSONDecodeError, log_request r w)
            | Some token => save_token self token (log_request r w)
            end
        end
    end
  else (Raise UnicodeEncodeError, w).
Proof.
  unfold retrieve_access_token.
  exact (token_call_run (code_request self code) w).
Qed.

Lemma refresh_token_run (rt : json) (w : World) :
  refresh_token self rt w =
  let r := refresh_request self rt in
  if is_ascii (credentials self) then
    match net w (List.length (sent w)) r with
    | Unreachable => (Raise RequestException, log_request r w)
    | Response content =>
        match utf8_decode content with
        | None => (Raise UnicodeDecodeError, log_request r w)
        | Some text =>
            match json_loads text with
            | None => (Raise JSONDecodeError, log_request r w)
            | Some token => save_token self token (log_request r w)
            end
        end
    end
  else (Raise UnicodeEncodeError, w).
Proof.
  unfold refresh_token.
  exact (token_call_run (refresh_request self rt) w).
Qed.

(** The [try] block, step by step. *)
Lemma get_credentials_try_run (w : World) :
  get_credentials_try self w =
  match fs w (cache self) with
  | Regular text =>
      match json_loads text with
      | None => (Raise JSONDecodeError, w)
      | Some creds =>
          match subscript creds "expires_at" with
          | Raise e => (Raise e, w)
          | Ok expires_at =>
              match float_gt (now w + 30)%Q expires_at with
              | Raise e => (Raise e, tick w)
              | Ok false => (Ok creds, tick w)
              | Ok true =>
                  let w1 := put_line "OAuth token is expired, refreshing..." (tick w) in
                  match subscript creds "refresh_token" with
                  | Raise e => (Raise e, w1)
                  | Ok rt => refresh_token self rt w1
                  end
              end
          end
      end
  | _ => (Raise OSError, w)
  end.
Proof.
  unfold get_credentials_try. unfold bind at 1. unfold read_file.
  destruct (fs w (cache self)) as [|text|]; [reflexivity| |reflexivity].
  unfold bind at 1. unfold lift at 1.
  destruct (json_loads text) as [creds|]; [|reflexivity].
  cbn [of_option]. unfold bind at 1. unfold lift at 1.
  destruct (subscript creds "expires_at") as [expires_at|e]; [|reflexivity].
  unfold bind at 1. rewrite is_token_expired_run.
  destruct (float_gt _ expires_at) as [[|]|e]; [|reflexivity|reflexivity].
  unfold bind at 1. unfold print at 1. unfold bind at 1. unfold lift at 1.
  destruct (subscript creds "refresh_token"); reflexivity.
Qed.

Lemma get_credentials_run (w : World) :
  get_credentials self w =
  match get_credentials_try self w with
  | (Ok creds, w') => (Ok (Some creds), w')
  | (Raise e, w') =>
      if is_IOError e || is_JSONDecodeError e
      then (Ok None, put_line "Error: cache does not exist or is empty" w')
      else (Raise e, w')
  end.
Proof.
  unfold get_credentials, try_except, bind at 1.
  destruct (get_credentials_try self w) as [[creds|e] w']; [reflexivity|].
  destruct (is_IOError e || is_JSONDecodeError e); reflexivity.
Qed.

End Runs.

(** ** Dicts *)

Module DictFacts.
Import Dict.

Lemma get_set_same (k : string) (v : json) (d : list (string * json)) :
  get k (set k v d) = Some v.
Proof.
  induction d as [|[k' v'] d IH]; simpl.
  - now rewrite String.eqb_refl.
  - destruct (String.eqb k k') eqn:E; simpl; rewrite ?String.eqb_refl, ?E; auto.
Qed.



(** A key that is there keeps its place; a new one goes last. *)
Lemma keys_set_order (k : string) (v : json) (d : list (string * json)) :
  keys (set k v d) = if existsb (String.eqb k) (keys d) then keys d else keys d ++ [k].
Proof.
  unfold keys. induction d as [|[k' v'] d IH]; simpl; [reflexivity|].
  destruct (String.eqb_spec k k') as [<-|Hk]; simpl; [reflexivity|].
  rewrite IH. now destruct (existsb _ _).
Qed.

End DictFacts.

(** ** The token manager *)

Section Claims.

Context `{PyLib}.
Variable self : SpotifyOAuth.




(** C10.  When the answer of the token endpoint is JSON without an
    [expires_in] to read, both token methods raise what the subscript
    raises, a [KeyError] for a JSON object, and the files are as they
    were: the cache is not opened. *)
Theorem missing_expires_in_keeps_cache
    (g : grant) (w : World) (content text : string) (token : json) (e : exn) :
  is_ascii (credentials self) = true ->
  net w (List.length (sent w)) (grant_request self g) = Response content ->
  utf8_decode content = Some text ->
  json_loads text = Some token ->
  subscript token "expires_in" = Raise e ->
  (exists w', token_method self g w = (Raise e, w') /\ fs w' = fs w) /\
  (forall d, token = JDict d -> e = KeyError "expires_in").
Proof.
  intros Hascii Hnet Hutf Hjson Hsub. split.
  - exists (tick (log_request (grant_request self g) w)). split; [|reflexivity].
    destruct g as [code|rt]; cbn [token_method grant_request] in *;
      [rewrite retrieve_access_token_run|rewrite refresh_token_run];
      cbv zeta; rewrite Hascii, Hnet, Hutf, Hjson, save_token_run, Hsub; reflexivity.
  - intros d ->. cbn [subscript] in Hsub.
    destruct (Dict.get "expires_in" d); congruence.
Qed.

End Claims.




Lemma missing_expires_in_keeps_cache_witness :
  exists w',
    retrieve_access_token (H := RefLib.lib) Sample.app "CODE"
      (Sample.world (Sample.one_file "/tmp/spotirec" (Sample.cached 5000))
                    (Response (RefLib.dumps Sample.error_body)))
    = (Raise (KeyError "expires_in"), w') /\
    fs w' = Sample.one_file "/tmp/spotirec" (Sample.cached 5000).
Proof.
  refine (proj1 (missing_expires_in_keeps_cache (H := RefLib.lib) Sample.app
                   (AuthorizationCode "CODE")
                   (Sample.world (Sample.one_file "/tmp/spotirec" (Sample.cached 5000))
                                 (Response (RefLib.dumps Sample.error_body)))
                   (RefLib.dumps Sample.error_body) (RefLib.dumps Sample.error_body)
                   Sample.error_body (KeyError "expires_in") _ _ _ _ _));
    reflexivity.
Defined.

Section Tokens.

Context `{PyLib}.
Variable self : SpotifyOAuth.

Lemma token_method_run (g : grant) (w : World) :
  token_method self g w =
  let r := grant_request self g in
  if is_ascii (credentials self) then
    match net w (List.length (sent w)) r with
    | Unreachable => (Raise RequestException, log_request r w)
    | Response content =>
        match utf8_decode content with
        | None => (Raise UnicodeDecodeError, log_request r w)
        | Some text =>
            match json_loads text with
            | None => (Raise JSONDecodeError, log_request r w)
            | Some token => save_token self token (log_request r w)
            end
        end
    end
  else (Raise UnicodeEncodeError, w).
Proof.
  destruct g; [apply retrieve_access_token_run|apply refresh_token_run].
Qed.

(** What [save_token] does when it succeeds, and that it succeeds only so. *)
Lemma save_token_ok (token token' : json) (w w' : World) :
  save_token self token w = (Ok token', w') <->
  exists d expires_in n,
    token = JDict d /\
    Dict.get "expires_in" d = Some expires_in /\
    py_int expires_in = Ok n /\
    fs w (cache self) <> Blocked /\
    token' = JDict (Dict.set "expires_at" (JInt (py_round (now w) + n)) d) /\
    w' = put_file (cache self) (json_dumps token') (tick w).
Proof.
  rewrite save_token_run. split.
  - destruct token as [| | | | | |d]; cbn [subscript]; try discriminate.
    destruct (Dict.get "expires_in" d) as [expires_in|] eqn:Hget; [|discriminate].
    destruct (py_int expires_in) as [n|] eqn:Hint; [|discriminate].
    cbn [setitem].
    destruct (fs w (cache self)) eqn:Hfs; [|idtac|discriminate];
      intros [= <- <-]; exists d, expires_in, n; repeat split; auto; congruence.
  - intros (d & expires_in & n & -> & Hget & Hint & Hfs & -> & ->).
    cbn [subscript setitem]. rewrite Hget, Hint.
    destruct (fs w (cache self)); [reflexivity|reflexivity|congruence].
Qed.

(** A failed [save_token] leaves the files alone. *)
Lemma save_token_raise (token : json) (e : exn) (w w' : World) :
  save_token self token w = (Raise e, w') -> w' = tick w.
Proof.
  rewrite save_token_run.
  destruct (subscript token "expires_in") as [expires_in|]; [|congruence].
  destruct (py_int expires_in) as [n|]; [|congruence].
  destruct (setitem token "expires_at" _) as [token1|]; [|congruence].
  destruct (fs w (cache self)); congruence.
Qed.

(** The master equation of the token methods: success, and nothing else,
    is an accepted request, a stamped token and the cache rewritten. *)
Lemma token_method_ok (g : grant) (token' : json) (w w' : World) :
  token_method self g w = (Ok token', w') <->
  exists d n,
    accepted self (grant_request self g) w d n /\
    token' = JDict (Dict.set "expires_at" (JInt (py_round (now w) + n)) d) /\
    w' = put_file (cache self) (json_dumps token')
           (tick (log_request (grant_request self g) w)).
Proof.
  rewrite token_method_run. cbv zeta. unfold accepted. split.
  - destruct (is_ascii (credentials self)) eqn:Hascii; [|discriminate].
    destruct (net w _ _) as [|content] eqn:Hnet; [discriminate|].
    destruct (utf8_decode content) as [text|] eqn:Hutf; [|discriminate].
    destruct (json_loads text) as [token|] eqn:Hjson; [|discriminate].
    intros Hsave. apply save_token_ok in Hsave
      as (d & expires_in & n & -> & Hget & Hint & Hfs & -> & ->).
    exists d, n. repeat split; auto.
    exists content, text, expires_in. auto.
  - intros (d & n & (Hascii & Hfs & content & text & expires_in
                      & Hnet & Hutf & Hjson & Hget & Hint) & -> & ->).
    rewrite Hascii, Hnet, Hutf, Hjson. apply save_token_ok.
    exists d, expires_in, n. repeat split; auto.
Qed.



End Tokens.

Section TokenClaims.

Context `{PyLib}.
Variable self : SpotifyOAuth.

(** C1.  On a cache file that holds a JSON value with an [expires_at]:
    when [is_token_expired] says no, [get_credentials] returns the cached
    value as it was read; when it says yes, [get_credentials] calls
    [refresh_token] on the cached [refresh_token], one request carrying
    it, and returns the token that call returns.  A timestamp ten seconds
    after the clock reading counts as expired. *)
Theorem get_credentials_contract
    (w : World) (text : string) (creds expires_at : json) :
  fs w (cache self) = Regular text ->
  json_loads text = Some creds ->
  subscript creds "expires_at" = Ok expires_at ->
  (fst (is_token_expired expires_at w) = Ok false ->
   get_credentials self w = (Ok (Some creds), tick w)) /\
  (fst (is_token_expired expires_at w) = Ok true ->
   forall rt token w2,
     subscript creds "refresh_token" = Ok rt ->
     refresh_token self rt
       (put_line "OAuth token is expired, refreshing..." (tick w)) = (Ok token, w2) ->
     get_credentials self w = (Ok (Some token), w2) /\
     sent w2 = sent w ++ [refresh_request self rt]) /\
  (forall v, numeric_value expires_at = Some v -> (v == now w + 10)%Q ->
             fst (is_token_expired expires_at w) = Ok true).
Proof.
  intros Hfile Hjson Hsub. rewrite is_token_expired_run. cbn [fst].
  split; [|split].
  - intros Hfresh.
    now rewrite get_credentials_run, get_credentials_try_run, Hfile, Hjson, Hsub, Hfresh.
  - intros Hstale rt token w2 Hrt Hrefresh. split.
    + rewrite get_credentials_run, get_credentials_try_run, Hfile, Hjson, Hsub, Hstale.
      cbv zeta. now rewrite Hrt, Hrefresh.
    + apply (token_method_ok self (RefreshToken rt)) in Hrefresh as (d & n & _ & _ & ->).
      reflexivity.
  - intros v Hv Hten.
    destruct (float_gt_numeric (now w + 30)%Q v expires_at Hv) as (b & -> & Hb).
    f_equal. apply Hb. rewrite Hten.
    apply Qplus_lt_r. reflexivity.
Qed.



(** C6.  After [save_token] the cache file, read and parsed again, is
    the saved record with [expires_at] added, as far as [json.loads]
    inverts [json.dumps] on it.  That [expires_at] is within half a
    second of the save time plus [int(expires_in)], which for an integer
    [expires_in] is [expires_in] itself.  [get_credentials] returns that
    record as long as it is not stale. *)
Theorem save_then_read (token token' : json) (w w1 : World) :
  save_token self token w = (Ok token', w1) ->
  json_loads (json_dumps token') = Some token' ->
  exists d expires_in n,
    token = JDict d /\
    Dict.get "expires_in" d = Some expires_in /\
    py_int expires_in = Ok n /\
    (forall m, expires_in = JInt m -> n = m) /\
    token' = JDict (Dict.set "expires_at" (JInt (py_round (now w) + n)) d) /\
    (exists text, read_file (cache self) w1 = (Ok text, w1) /\
                  json_loads text = Some token') /\
    (Qabs (inject_Z (py_round (now w) + n) - (now w + inject_Z n)) <= 1 # 2)%Q /\
    (fst (is_token_expired (JInt (py_round (now w) + n)) w1) = Ok false ->
     get_credentials self w1 = (Ok (Some token'), tick w1)).
Proof.
  intros Hsave Hcodec.
  apply save_token_ok in Hsave as (d & expires_in & n & -> & Hget & Hint & Hfs & -> & ->).
  set (token' := JDict (Dict.set "expires_at" (JInt (py_round (now w) + n)) d)) in *.
  set (w1 := put_file (cache self) (json_dumps token') (tick w)).
  assert (Hfile : fs w1 (cache self) = Regular (json_dumps token')).
  { unfold w1. cbn [put_file fs]. now rewrite String.eqb_refl. }
  exists d, expires_in, n. repeat split; auto.
  - intros m ->. cbn [py_int] in Hint. congruence.
  - exists (json_dumps token'). split; [|exact Hcodec].
    unfold read_file. now rewrite Hfile.
  - apply Qabs_Qle_condition. rewrite inject_Z_plus.
    destruct (py_round_near (now w)) as [Hlo Hhi].
    split.
    + apply Qle_minus_iff. apply Qle_minus_iff in Hlo.
      eapply Qle_trans; [exact Hlo|]. apply Qle_lteq. right. ring.
    + apply Qle_minus_iff. apply Qle_minus_iff in Hhi.
      eapply Qle_trans; [exact Hhi|]. apply Qle_lteq. right. ring.
  - rewrite is_token_expired_run. cbn [fst]. intros Hfresh.
    rewrite get_credentials_run, get_credentials_try_run, Hfile, Hcodec.
    unfold token' at 1. cbn [subscript]. rewrite DictFacts.get_set_same.
    now rewrite Hfresh.
Qed.

End TokenClaims.

Lemma get_credentials_contract_witness :
  get_credentials (H := RefLib.lib) Sample.app Sample.fresh_world
    = (Ok (Some (JDict [("access_token", JStr "AT1"); ("refresh_token", JStr "RT1");
                        ("expires_in", JInt 3600); ("expires_at", JInt 5000)])),
       tick Sample.fresh_world) /\
  exists token w2,
    get_credentials (H := RefLib.lib) Sample.app Sample.stale_world = (Ok (Some token), w2) /\
    sent w2 = [refresh_request (H := RefLib.lib) Sample.app (JStr "RT1")].
Proof.
  split.
  - apply (proj1 (get_credentials_contract (H := RefLib.lib) Sample.app Sample.fresh_world
                    (Sample.cached 5000) _ (JInt 5000) eq_refl eq_refl eq_refl)).
    reflexivity.
  - do 2 eexists.
    apply (proj1 (proj2 (get_credentials_contract (H := RefLib.lib) Sample.app
                           Sample.stale_world (Sample.cached 1010) _ (JInt 1010)
                           eq_refl eq_refl eq_refl)));
      [reflexivity|reflexivity|vm_compute; reflexivity].
Defined.




Lemma save_then_read_witness :
  let w := Sample.first_run in
  let w1 := put_file "/tmp/spotirec" (RefLib.dumps Sample.stamped_token) (tick w) in
  exists d expires_in n,
    Sample.fresh_token = JDict d /\
    Dict.get "expires_in" d = Some expires_in /\
    py_int (H := RefLib.lib) expires_in = Ok n /\
    (forall m, expires_in = JInt m -> n = m) /\
    Sample.stamped_token = JDict (Dict.set "expires_at" (JInt (py_round (now w) + n)) d) /\
    (exists text, read_file (cache Sample.app) w1 = (Ok text, w1) /\
                  RefLib.loads text = Some Sample.stamped_token) /\
    (Qabs (inject_Z (py_round (now w) + n) - (now w + inject_Z n)) <= 1 # 2)%Q /\
    (fst (is_token_expired (JInt (py_round (now w) + n)) w1) = Ok false ->
     get_credentials (H := RefLib.lib) Sample.app w1 = (Ok (Some Sample.stamped_token), tick w1)).
Proof.
  cbv zeta.
  apply (save_then_read (H := RefLib.lib) Sample.app Sample.fresh_token
           Sample.stamped_token Sample.first_run); reflexivity.
Defined.

(** ** A refresh that fails *)

Section RefreshFailure.

Context `{PyLib}.
Variable self : SpotifyOAuth.

(** The refresh runs inside the [try] block.  When it raises, an
    [IOError], which a transport error of [requests] is, or a
    [JSONDecodeError] of the answer ends like a missing cache; any other
    exception reaches the caller. *)
Lemma get_credentials_refresh_failure
    (w w2 : World) (text : string) (creds expires_at rt : json) (e : exn) :
  fs w (cache self) = Regular text ->
  json_loads text = Some creds ->
  subscript creds "expires_at" = Ok expires_at ->
  fst (is_token_expired expires_at w) = Ok true ->
  subscript creds "refresh_token" = Ok rt ->
  refresh_token self rt
    (put_line "OAuth token is expired, refreshing..." (tick w)) = (Raise e, w2) ->
  get_credentials self w =
    if is_IOError e || is_JSONDecodeError e
    then (Ok None, put_line "Error: cache does not exist or is empty" w2)
    else (Raise e, w2).
Proof.
  intros Hfile Hjson Hsub Hstale Hrt Hrefresh.
  rewrite is_token_expired_run in Hstale. cbn [fst] in Hstale.
  rewrite get_credentials_run, get_credentials_try_run, Hfile, Hjson, Hsub, Hstale.
  cbv zeta. now rewrite Hrt, Hrefresh.
Qed.

End RefreshFailure.

Example stale_cache_endpoint_down :
  fst (get_credentials (H := RefLib.lib) Sample.app
         (Sample.world (Sample.one_file "/tmp/spotirec" (Sample.cached 1010)) Unreachable))
  = Ok None.
Proof. reflexivity. Qed.

Example stale_cache_error_answer :
  fst (get_credentials (H := RefLib.lib) Sample.app
         (Sample.world (Sample.one_file "/tmp/spotirec" (Sample.cached 1010))
                       (Response (RefLib.dumps Sample.error_body))))
  = Raise (KeyError "expires_in").
Proof. reflexivity. Qed.

(** * Further properties *)

(** ** More on cutting strings *)

Module CutFacts.
Import Str.

(** A separator cannot begin inside a text that lacks its first
    character: the cut is made in what follows. *)
Lemma partition_skip (c : ascii) (sep' x y : string) :
  Urllib.mem c x = false ->
  partition (String c sep') (x ++ y) =
  match partition (String c sep') y with
  | Some (a, b) => Some ((x ++ a)%string, b)
  | None => None
  end.
Proof.
  intros Hx. induction x as [|d x IH].
  - cbn [append]. now destruct (partition (String c sep') y) as [[a b]|].
  - cbn [Urllib.mem] in Hx. apply orb_false_elim in Hx as [Hd Hx].
    cbn [append partition strip_prefix]. rewrite Hd, (IH Hx).
    now destruct (partition (String c sep') y) as [[a b]|].
Qed.

Lemma partition_step (sep : string) (c : ascii) (s : string) :
  partition sep (String c s) =
  match strip_prefix sep (String c s) with
  | Some rest => Some (""%string, rest)
  | None =>
      match partition sep s with
      | Some (a, b) => Some (String c a, b)
      | None => None
      end
  end.
Proof. reflexivity. Qed.

Lemma partition_absent (c : ascii) (sep' x : string) :
  Urllib.mem c x = false -> partition (String c sep') x = None.
Proof.
  intros Hx. rewrite <- (StrFacts.app_nil_r x), (partition_skip c sep' x "" Hx).
  reflexivity.
Qed.

Lemma partition_here (sep b : string) : partition sep (sep ++ b) = Some (""%string, b).
Proof.
  apply (StrFacts.partition_first sep "" b). intros a' b' _. cbn. lia.
Qed.

Lemma upto_skip (c : ascii) (sep' x y : string) :
  Urllib.mem c x = false ->
  upto (String c sep') (x ++ y) = (x ++ upto (String c sep') y)%string.
Proof.
  intros Hx. unfold upto. rewrite (partition_skip c sep' x y Hx).
  now destruct (partition (String c sep') y) as [[a b]|].
Qed.

Lemma upto_prefix (sep s : string) : exists t, s = (upto sep s ++ t)%string.
Proof.
  unfold upto. destruct (partition sep s) as [[a b]|] eqn:P.
  - apply StrFacts.partition_some in P as [-> _]. eauto.
  - exists ""%string. now rewrite StrFacts.app_nil_r.
Qed.

Lemma occurs_app_l (sep a t : string) : occurs sep a -> occurs sep (a ++ t).
Proof.
  intros (x & y & ->). exists x, (y ++ t)%string.
  now rewrite !StrFacts.app_assoc.
Qed.

(** What stands before the leftmost separator holds no separator. *)
Lemma upto_clean (sep s : string) : sep <> ""%string -> ~ occurs sep (upto sep s).
Proof.
  intros Hsep. unfold upto. destruct (partition sep s) as [[a b]|] eqn:P.
  - apply StrFacts.partition_some in P as [-> Hmin].
    intros (x & y & ->).
    specialize (Hmin x (y ++ sep ++ b)%string).
    rewrite !StrFacts.app_assoc in Hmin. specialize (Hmin eq_refl).
    rewrite !StrFacts.length_app in Hmin.
    destruct sep; [congruence|cbn in Hmin; lia].
  - now apply StrFacts.partition_none.
Qed.

Lemma all_in_app (allowed a b : string) :
  all_in allowed (a ++ b) = all_in allowed a && all_in allowed b.
Proof. induction a as [|c a IH]; cbn; [reflexivity|]. now rewrite IH, andb_assoc. Qed.

End CutFacts.

(** ** [parse_response_code], further *)

(** X1.  A code that [parse_response_code] returns holds no [&] and no
    [?code=]. *)
Theorem parse_response_code_clean (url code : string) :
  parse_response_code url = Some code ->
  ~ Str.occurs "&" code /\ ~ Str.occurs "?code=" code.
Proof.
  rewrite parse_response_code_eq.
  destruct (Str.partition code_marker url) as [[pre rest]|]; [|discriminate].
  intros [= <-]. split.
  - apply CutFacts.upto_clean. discriminate.
  - intros Hocc.
    destruct (CutFacts.upto_prefix "&" (Str.upto code_marker rest)) as (t & Ht).
    apply (CutFacts.upto_clean code_marker rest code_marker_nonempty).
    rewrite Ht. now apply CutFacts.occurs_app_l.
Qed.

Lemma parse_response_code_clean_witness :
  ~ Str.occurs "&" "A" /\ ~ Str.occurs "?code=" "A".
Proof.
  apply (parse_response_code_clean "https://app/cb?code=A?code=B&x=1" "A").
  reflexivity.
Defined.

(** X2.  A redirect URL put together from an address without [?], the
    marker, a code without [?] and [&], and then nothing or further
    parameters, gives that code back, the empty code included: nothing
    after the marker is the empty string, not [None]. *)
Theorem parse_response_code_built (base code rest : string) :
  Urllib.mem "?" base = false ->
  Urllib.mem "?" code = false ->
  Urllib.mem "&" code = false ->
  rest = ""%string \/ (exists more, rest = String "&" more) ->
  parse_response_code (base ++ "?code=" ++ code ++ rest) = Some code.
Proof.
  intros Hbase Hq Hamp Hrest. rewrite parse_response_code_eq. unfold code_marker.
  rewrite (CutFacts.partition_skip "?" "code=" base _ Hbase).
  rewrite (CutFacts.partition_here "?code=" (code ++ rest)). f_equal.
  destruct Hrest as [->|(more & ->)].
  - rewrite StrFacts.app_nil_r. unfold Str.upto at 2.
    rewrite (CutFacts.partition_absent "?" "code=" code Hq).
    unfold Str.upto. now rewrite (UrllibFacts.partition_char_none "&" code Hamp).
  - change (code ++ String "&" more)%string with (code ++ "&" ++ more)%string.
    rewrite <- StrFacts.app_assoc.
    rewrite (CutFacts.upto_skip "?" "code=" (code ++ "&") more)
      by (now rewrite UrllibFacts.mem_app, Hq).
    rewrite StrFacts.app_assoc. unfold Str.upto at 1.
    change (code ++ "&" ++ Str.upto "?code=" more)%string
      with (code ++ String "&" (Str.upto "?code=" more))%string.
    now rewrite (UrllibFacts.partition_char_some "&" code _ Hamp).
Qed.

Lemma parse_response_code_built_witness :
  parse_response_code ("https://app/cb" ++ "?code=" ++ "" ++ "&state=xyz") = Some ""%string /\
  parse_response_code ("https://app/cb" ++ "?code=" ++ "AQB-x_9" ++ "") = Some "AQB-x_9"%string.
Proof.
  split.
  - apply (parse_response_code_built "https://app/cb" "" "&state=xyz");
      try reflexivity. right. now exists "state=xyz"%string.
  - apply (parse_response_code_built "https://app/cb" "AQB-x_9" "");
      try reflexivity. now left.
Defined.

(** X3.  What comes before the first [?] has no say: a prefix without [?]
    can be put before a URL or taken away without changing the result. *)
Theorem parse_response_code_prefix (pre url : string) :
  Urllib.mem "?" pre = false ->
  parse_response_code (pre ++ url) = parse_response_code url.
Proof.
  intros Hpre. rewrite !parse_response_code_eq. unfold code_marker.
  rewrite (CutFacts.partition_skip "?" "code=" pre url Hpre).
  now destruct (Str.partition "?code=" url) as [[a b]|].
Qed.

Lemma parse_response_code_prefix_witness :
  parse_response_code ("https://app/cb" ++ "?code=ABC123&state=xyz")
  = parse_response_code "?code=ABC123&state=xyz".
Proof. apply (parse_response_code_prefix "https://app/cb"). reflexivity. Defined.

(** ** [get_authorize_url], further *)

Module QuoteFacts.
Import Urllib.

Lemma plus_encode_alphabet (c : ascii) : all_in url_alphabet (plus_encode c) = true.
Proof. UrllibFacts.each_byte c; reflexivity. Qed.

Lemma quote_plus_alphabet (s : string) : all_in url_alphabet (quote_plus s) = true.
Proof.
  rewrite UrllibFacts.quote_plus_flat_map.
  induction s as [|c s IH]; [reflexivity|].
  cbn [flat_map]. now rewrite CutFacts.all_in_app, plus_encode_alphabet, IH.
Qed.

Lemma plus_encode_no_question (c : ascii) : mem "?" (plus_encode c) = false.
Proof. UrllibFacts.each_byte c; reflexivity. Qed.

Lemma quote_plus_no_question (s : string) : mem "?" (quote_plus s) = false.
Proof.
  rewrite UrllibFacts.quote_plus_flat_map.
  induction s as [|c s IH]; [reflexivity|].
  cbn [flat_map]. now rewrite UrllibFacts.mem_app, plus_encode_no_question, IH.
Qed.

Lemma quote_plus_injective (s t : string) : quote_plus s = quote_plus t -> s = t.
Proof.
  intros E. apply (f_equal unquote_plus) in E.
  now rewrite !UrllibFacts.unquote_plus_quote_plus in E.
Qed.

End QuoteFacts.

(** X4.  The URL tells the client id, the redirect address and the scopes,
    and nothing else of the configuration: two configurations give the
    same URL exactly when they agree on these three, whatever their
    client secrets and cache paths. *)
Theorem get_authorize_url_determines (a b : SpotifyOAuth) :
  get_authorize_url a = get_authorize_url b <->
  client_id a = client_id b /\ redirect a = redirect b /\ scopes a = scopes b.
Proof.
  split.
  - intros E. apply (f_equal Urllib.query_params) in E.
    rewrite !get_authorize_url_params in E.
    injection E as Eid Ered Esc.
    repeat split; now apply QuoteFacts.quote_plus_injective.
  - intros (Eid & Ered & Esc). rewrite !get_authorize_url_eq. congruence.
Qed.

(** X5.  Whatever the configuration holds, the URL is made of unreserved
    characters, [:], [/], [?], [&], [=], [%] and [+] only: no space, no
    quote, no [#], no byte above 127. *)
Theorem get_authorize_url_alphabet (self : SpotifyOAuth) :
  all_in url_alphabet (get_authorize_url self) = true.
Proof.
  rewrite get_authorize_url_eq.
  rewrite !CutFacts.all_in_app, !QuoteFacts.quote_plus_alphabet.
  reflexivity.
Qed.

(** X6.  The authorization URL is never taken for a redirect that carries
    a code: its only [?] is followed by [client_id], so
    [parse_response_code] gives [None] on it. *)
Theorem get_authorize_url_has_no_code (self : SpotifyOAuth) :
  parse_response_code (get_authorize_url self) = None.
Proof.
  rewrite parse_response_code_eq, get_authorize_url_eq. unfold code_marker.
  set (query := ("client_id=" ++ Urllib.quote_plus (client_id self)
                 ++ "&response_type=code&redirect_uri=" ++ Urllib.quote_plus (redirect self)
                 ++ "&scope=" ++ Urllib.quote_plus (scopes self))%string).
  assert (P : Str.partition "?code="
                ("https://accounts.spotify.com/authorize" ++ String "?" query) = None).
  { rewrite (CutFacts.partition_skip "?" "code=" "https://accounts.spotify.com/authorize"
               (String "?" query) eq_refl).
    rewrite CutFacts.partition_step.
    change (Str.strip_prefix "?code=" (String "?" query)) with (@None string).
    rewrite (CutFacts.partition_absent "?" "code=" query); [reflexivity|].
    unfold query. rewrite !UrllibFacts.mem_app, !QuoteFacts.quote_plus_no_question.
    reflexivity. }
  match goal with
  | |- match ?p with _ => _ end = _ =>
      change p with (Str.partition "?code="
                       ("https://accounts.spotify.com/authorize" ++ String "?" query))
  end.
  now rewrite P.
Qed.

(** ** Numbers, further *)


Lemma float_gt_ok (t : Q) (x : json) (b : bool) :
  float_gt t x = Ok b -> exists v, numeric_value x = Some v.
Proof. destruct x; cbn; intros E; try discriminate; eauto. Qed.

Lemma float_gt_not_numeric (t : Q) (x : json) :
  numeric_value x = None -> float_gt t x = Raise TypeError.
Proof. destruct x; cbn; intros E; try discriminate; reflexivity. Qed.

(** ** The token manager, further *)

Section Further.

Context `{PyLib}.
Variable self : SpotifyOAuth.

(** Where a token method can leave the world: clock and network as they
    were, nothing printed, no file touched but the cache, at most its own
    request sent, the clock read at most once, and the cache rewritten
    only with the token it returns. *)
Lemma token_method_world (g : grant) (w w' : World) (r : result json) :
  token_method self g w = (r, w') ->
  clock w' = clock w /\ net w' = net w /\ stdout w' = stdout w /\
  (forall p, p <> cache self -> fs w' p = fs w p) /\
  (sent w' = sent w \/ sent w' = sent w ++ [grant_request self g]) /\
  (fs w' = fs w \/
   exists token, r = Ok token /\ fs w' (cache self) = Regular (json_dumps token)).
Proof.
  destruct r as [token|e]; intros Hrun.
  - apply token_method_ok in Hrun as (d & n & _ & -> & ->).
    cbn [put_file tick log_request clock net stdout sent fs].
    repeat split; auto.
    + intros p Hp. now rewrite (proj2 (String.eqb_neq p (cache self)) Hp).
    + right. eexists. split; [reflexivity|]. now rewrite String.eqb_refl.
  - rewrite token_method_run in Hrun. cbv zeta in Hrun.
    destruct (is_ascii (credentials self)); [|injection Hrun as _ <-; intuition].
    destruct (net w _ _) as [|content]; [injection Hrun as _ <-; cbn; intuition|].
    destruct (utf8_decode content) as [text|]; [|injection Hrun as _ <-; cbn; intuition].
    destruct (json_loads text) as [token|]; [|injection Hrun as _ <-; cbn; intuition].
    apply save_token_raise in Hrun as ->. cbn. intuition.
Qed.



(** X9.  A token saved with an integer [expires_in] of [n] seconds stays
    fresh for [n - 30.5] seconds at least; with [n] of 29 or less it is
    stale from the start, at any clock reading not before the save. *)
Theorem saved_token_freshness
    (d : list (string * json)) (n : Z) (w w1 : World) (token' : json) :
  Dict.get "expires_in" d = Some (JInt n) ->
  save_token self (JDict d) w = (Ok token', w1) ->
  exists m,
    subscript token' "expires_at" = Ok (JInt m) /\
    forall w2,
      ((now w2 - now w <= inject_Z n - (61 # 2))%Q ->
       fst (is_token_expired (JInt m) w2) = Ok false) /\
      ((now w <= now w2)%Q -> (n <= 29)%Z ->
       fst (is_token_expired (JInt m) w2) = Ok true).
Proof.
  intros Hget Hsave.
  apply save_token_ok in Hsave as (d0 & v & n0 & [= <-] & Hget0 & Hint & _ & -> & _).
  rewrite Hget in Hget0. injection Hget0 as <-. cbn [py_int] in Hint. injection Hint as <-.
  eexists. split.
  - cbn [subscript]. now rewrite DictFacts.get_set_same.
  - intros w2. rewrite is_token_expired_run. cbn [fst float_gt].
    destruct (py_round_near (now w)) as [Hlo Hhi].
    split.
    + intros Hearly. f_equal. apply negb_false_iff, Qle_bool_iff.
      rewrite inject_Z_plus. lra.
    + intros Hlater Hn. f_equal. apply negb_true_iff, not_true_iff_false.
      rewrite Qle_bool_iff, inject_Z_plus.
      assert (Hn' : (inject_Z n <= inject_Z 29)%Q) by (rewrite <- Zle_Qle; exact Hn).
      change (inject_Z 29) with (29 # 1)%Q in Hn'.
      lra.
Qed.

(** X10.  A cache that is JSON but no dict, or whose [expires_at] is no
    number, makes [get_credentials] raise [TypeError]: such a cache is
    not taken for a missing one. *)
Theorem get_credentials_type_error (w : World) (text : string) (creds : json) :
  fs w (cache self) = Regular text ->
  json_loads text = Some creds ->
  ((forall d, creds <> JDict d) ->
   get_credentials self w = (Raise TypeError, w)) /\
  (forall d x, creds = JDict d -> Dict.get "expires_at" d = Some x ->
               numeric_value x = None ->
               get_credentials self w = (Raise TypeError, tick w)).
Proof.
  intros Hfile Hjson.
  rewrite get_credentials_run, get_credentials_try_run, Hfile, Hjson. split.
  - intros Hnot. destruct creds; try reflexivity. now destruct (Hnot d).
  - intros d x -> Hget Hnum. cbn [subscript]. rewrite Hget.
    now rewrite (float_gt_not_numeric _ x Hnum).
Qed.

End Further.

Section Flows.

Context `{PyLib}.
Variable self : SpotifyOAuth.

(** X11.  How a token method fails before a token is there.  Credentials
    that are not ASCII raise [UnicodeEncodeError] before anything is
    sent, and the world is as it was.  An endpoint that cannot be reached
    raises [RequestException]; an answer that is not UTF-8
    [UnicodeDecodeError]; an answer that is not JSON [JSONDecodeError];
    in these three the request has gone out and nothing else happened. *)
Theorem token_method_errors (g : grant) (w : World) :
  let r := grant_request self g in
  (is_ascii (credentials self) = false ->
   token_method self g w = (Raise UnicodeEncodeError, w)) /\
  (is_ascii (credentials self) = true ->
   (net w (List.length (sent w)) r = Unreachable ->
    token_method self g w = (Raise RequestException, log_request r w)) /\
   (forall content,
       net w (List.length (sent w)) r = Response content ->
       (utf8_decode content = None ->
        token_method self g w = (Raise UnicodeDecodeError, log_request r w)) /\
       (forall text, utf8_decode content = Some text -> json_loads text = None ->
        token_method self g w = (Raise JSONDecodeError, log_request r w)))).
Proof.
  cbv zeta. rewrite token_method_run. cbv zeta. split.
  - now intros ->.
  - intros ->. split.
    + now intros ->.
    + intros content ->. split.
      * now intros ->.
      * now intros text -> ->.
Qed.

(** X12.  A stale cache and a refresh that fails.  [get_credentials]
    returns [None], with the line about a missing cache, when the
    endpoint cannot be reached or answers something that is not JSON: the
    [except] clause takes both.  It raises, to the caller, when the
    credentials are not ASCII or the answer is not UTF-8. *)
Theorem get_credentials_stale_errors
    (w : World) (text : string) (d : list (string * json)) (x rt : json) :
  fs w (cache self) = Regular text ->
  json_loads text = Some (JDict d) ->
  Dict.get "expires_at" d = Some x ->
  fst (is_token_expired x w) = Ok true ->
  Dict.get "refresh_token" d = Some rt ->
  let w1 := put_line "OAuth token is expired, refreshing..." (tick w) in
  let r := refresh_request self rt in
  let absent := put_line "Error: cache does not exist or is empty" (log_request r w1) in
  (is_ascii (credentials self) = false ->
   get_credentials self w = (Raise UnicodeEncodeError, w1)) /\
  (is_ascii (credentials self) = true ->
   (net w (List.length (sent w)) r = Unreachable ->
    get_credentials self w = (Ok None, absent)) /\
   (forall content,
       net w (List.length (sent w)) r = Response content ->
       (utf8_decode content = None ->
        get_credentials self w = (Raise UnicodeDecodeError, log_request r w1)) /\
       (forall text', utf8_decode content = Some text' -> json_loads text' = None ->
        get_credentials self w = (Ok None, absent)))).
Proof.
  intros Hfile Hjson Hget Hstale Hrt. cbv zeta.
  rewrite is_token_expired_run in Hstale. cbn [fst] in Hstale.
  rewrite get_credentials_run, get_credentials_try_run, Hfile, Hjson.
  cbn [subscript]. rewrite Hget, Hstale. cbv zeta. rewrite Hrt.
  rewrite refresh_token_run. cbv zeta.
  cbn [put_line tick net sent].
  split.
  - now intros ->.
  - intros ->. split.
    + now intros ->.
    + intros content ->. split.
      * now intros ->.
      * now intros text' -> ->.
Qed.

(** X13.  Whatever [get_credentials] does, it leaves clock and network
    as they were and touches no file but the cache; it sends nothing or
    one refresh request; and the cache is as before unless a token is
    returned and the cache holds exactly that token. *)
Theorem get_credentials_frame (w w' : World) (r : result (option json)) :
  get_credentials self w = (r, w') ->
  clock w' = clock w /\ net w' = net w /\
  (forall p, p <> cache self -> fs w' p = fs w p) /\
  (sent w' = sent w \/ exists rt, sent w' = sent w ++ [refresh_request self rt]) /\
  (fs w' = fs w \/
   exists token, r = Ok (Some token) /\ fs w' (cache self) = Regular (json_dumps token)).
Proof.
  rewrite get_credentials_run, get_credentials_try_run.
  assert (Hsame : forall (rr : result (option json)) (w0 : World),
             clock w0 = clock w -> net w0 = net w -> fs w0 = fs w -> sent w0 = sent w ->
             (rr, w0) = (r, w') ->
             clock w' = clock w /\ net w' = net w /\
             (forall p, p <> cache self -> fs w' p = fs w p) /\
             (sent w' = sent w \/ exists rt, sent w' = sent w ++ [refresh_request self rt]) /\
             (fs w' = fs w \/
              exists token, r = Ok (Some token) /\
                            fs w' (cache self) = Regular (json_dumps token))).
  { intros rr w0 Hc Hn Hf Hs [= <- <-]. rewrite Hf. repeat split; auto. }
  assert (Hdone : forall (rr : result (option json)) (w0 : World),
             clock w0 = clock w -> net w0 = net w -> fs w0 = fs w -> sent w0 = sent w ->
             forall e,
               (if is_IOError e || is_JSONDecodeError e
                then (Ok None, put_line "Error: cache does not exist or is empty" w0)
                else (Raise e, w0)) = (r, w') ->
               clock w' = clock w /\ net w' = net w /\
               (forall p, p <> cache self -> fs w' p = fs w p) /\
               (sent w' = sent w \/ exists rt, sent w' = sent w ++ [refresh_request self rt]) /\
               (fs w' = fs w \/
                exists token, r = Ok (Some token) /\
                              fs w' (cache self) = Regular (json_dumps token))).
  { intros rr w0 Hc Hn Hf Hs e E.
    destruct (is_IOError e || is_JSONDecodeError e);
      refine (Hsame _ _ _ _ _ _ E); assumption. }
  destruct (fs w (cache self)) as [|text|];
    [apply (Hdone (Ok None) w eq_refl eq_refl eq_refl eq_refl)| |
     apply (Hdone (Ok None) w eq_refl eq_refl eq_refl eq_refl)].
  destruct (json_loads text) as [creds|];
    [|apply (Hdone (Ok None) w eq_refl eq_refl eq_refl eq_refl)].
  destruct (subscript creds "expires_at") as [x|e];
    [|apply (Hdone (Ok None) w eq_refl eq_refl eq_refl eq_refl)].
  destruct (float_gt _ x) as [[|]|e];
    [|apply (Hsame _ (tick w) eq_refl eq_refl eq_refl eq_refl)
     |apply (Hdone (Ok None) (tick w) eq_refl eq_refl eq_refl eq_refl)].
  cbv zeta.
  destruct (subscript creds "refresh_token") as [rt|e];
    [|apply (Hdone (Ok None) (put_line "OAuth token is expired, refreshing..." (tick w))
               eq_refl eq_refl eq_refl eq_refl)].
  set (w1 := put_line "OAuth token is expired, refreshing..." (tick w)).
  destruct (refresh_token self rt w1) as [rr w2] eqn:Hrefresh.
  apply (token_method_world self (RefreshToken rt)) in Hrefresh
    as (Hc & Hn & _ & Hfr & Hs & Hf).
  cbn [grant_request] in Hs.
  assert (Hsent : sent w2 = sent w \/ exists rt0, sent w2 = sent w ++ [refresh_request self rt0])
    by (destruct Hs as [Hs|Hs]; [left|right; exists rt]; exact Hs).
  destruct rr as [token|e].
  - intros [= <- <-]. repeat split; auto.
    destruct Hf as [Hf|(token0 & [= <-] & Hf)]; [now left|right; eauto].
  - assert (Hfs : fs w2 = fs w) by (destruct Hf as [Hf|(token0 & E & _)]; [exact Hf|discriminate E]).
    destruct (is_IOError e || is_JSONDecodeError e); intros [= <- <-];
      cbn [put_line clock net fs sent]; rewrite ?Hfs; repeat split; auto.
Qed.

(** X14.  What [get_credentials] returns, when it returns a token, is a
    dict with an [expires_at] that is a number. *)
Theorem get_credentials_returns_stamped (w w' : World) (token : json) :
  get_credentials self w = (Ok (Some token), w') ->
  exists d x v,
    token = JDict d /\ Dict.get "expires_at" d = Some x /\ numeric_value x = Some v.
Proof.
  rewrite get_credentials_run, get_credentials_try_run.
  destruct (fs w (cache self)) as [|text|]; try discriminate.
  destruct (json_loads text) as [creds|]; [|discriminate].
  destruct creds as [| | | | | |d]; cbn [subscript]; try discriminate.
  destruct (Dict.get "expires_at" d) as [x|] eqn:Hget; [|discriminate].
  destruct (float_gt _ x) as [[|]|e] eqn:Hgt.
  - cbv zeta. destruct (Dict.get "refresh_token" d) as [rt|]; [|discriminate].
    destruct (refresh_token self rt _) as [[token0|e] w2] eqn:Hrefresh.
    + intros [= <- <-].
      apply (token_method_ok self (RefreshToken rt)) in Hrefresh as (d0 & n & _ & -> & _).
      do 3 eexists. split; [reflexivity|]. split; [apply DictFacts.get_set_same|reflexivity].
    + destruct (is_IOError e || is_JSONDecodeError e); discriminate.
  - intros [= <- <-]. apply float_gt_ok in Hgt as (v & Hv). eauto 6.
  - destruct (is_IOError e || is_JSONDecodeError e); discriminate.
Qed.

(** X15.  Asking for a token and then for the credentials: when
    [json.loads] inverts [json.dumps] on the token a token method
    returned, and that token is not yet stale, [get_credentials] returns
    the same token, from the cache, and sends nothing. *)
Theorem token_then_credentials (g : grant) (w w1 : World) (token : json) :
  token_method self g w = (Ok token, w1) ->
  json_loads (json_dumps token) = Some token ->
  exists m,
    subscript token "expires_at" = Ok (JInt m) /\
    (fst (is_token_expired (JInt m) w1) = Ok false ->
     get_credentials self w1 = (Ok (Some token), tick w1) /\
     sent (tick w1) = sent w ++ [grant_request self g]).
Proof.
  intros Hrun Hcodec.
  apply token_method_ok in Hrun as (d & n & _ & -> & ->).
  set (token := JDict (Dict.set "expires_at" (JInt (py_round (now w) + n)) d)) in *.
  eexists. split.
  - unfold token. cbn [subscript]. now rewrite DictFacts.get_set_same.
  - rewrite is_token_expired_run. cbn [fst]. intros Hfresh. split; [|reflexivity].
    rewrite get_credentials_run, get_credentials_try_run.
    cbn [put_file fs]. rewrite String.eqb_refl, Hcodec.
    unfold token at 1. cbn [subscript]. rewrite DictFacts.get_set_same.
    now rewrite Hfresh.
Qed.

End Flows.

(** ** Runs of the further properties *)



Lemma saved_token_freshness_witness :
  exists m,
    subscript Sample2.short_stamped "expires_at" = Ok (JInt m) /\
    forall w2,
      ((now w2 - now Sample.first_run <= inject_Z 20 - (61 # 2))%Q ->
       fst (is_token_expired (JInt m) w2) = Ok false) /\
      ((now Sample.first_run <= now w2)%Q -> (20 <= 29)%Z ->
       fst (is_token_expired (JInt m) w2) = Ok true).
Proof.
  eapply (saved_token_freshness (H := RefLib.lib) Sample.app Sample2.short_token
            20 Sample.first_run);
    [reflexivity|vm_compute; reflexivity].
Defined.

Lemma get_credentials_type_error_witness :
  get_credentials (H := RefLib.lib) Sample.app
    (Sample2.cache_with Sample2.list_cache Unreachable)
    = (Raise TypeError, Sample2.cache_with Sample2.list_cache Unreachable) /\
  get_credentials (H := RefLib.lib) Sample.app
    (Sample2.cache_with Sample2.odd_cache Unreachable)
    = (Raise TypeError, tick (Sample2.cache_with Sample2.odd_cache Unreachable)).
Proof.
  split.
  - apply (proj1 (get_credentials_type_error (H := RefLib.lib) Sample.app
                    (Sample2.cache_with Sample2.list_cache Unreachable)
                    Sample2.list_cache (JList []) eq_refl eq_refl)).
    discriminate.
  - refine (proj2 (get_credentials_type_error (H := RefLib.lib) Sample.app
                     (Sample2.cache_with Sample2.odd_cache Unreachable)
                     Sample2.odd_cache _ eq_refl eq_refl)
              _ (JStr "soon") eq_refl eq_refl eq_refl).
Defined.

Lemma token_method_errors_witness :
  token_method (H := RefLib.lib) Sample2.accented (AuthorizationCode "CODE") Sample.first_run
    = (Raise UnicodeEncodeError, Sample.first_run) /\
  fst (token_method (H := RefLib.lib) Sample.app (AuthorizationCode "CODE")
         (Sample.world Sample.no_files (Response Sample2.latin1)))
    = Raise UnicodeDecodeError /\
  fst (token_method (H := RefLib.lib) Sample.app (AuthorizationCode "CODE")
         (Sample.world Sample.no_files (Response Sample2.html)))
    = Raise JSONDecodeError.
Proof.
  split; [|split].
  - apply (proj1 (token_method_errors (H := RefLib.lib) Sample2.accented
                    (AuthorizationCode "CODE") Sample.first_run)).
    reflexivity.
  - rewrite (proj1 (proj2 (proj2 (token_method_errors (H := RefLib.lib) Sample.app
                                    (AuthorizationCode "CODE")
                                    (Sample.world Sample.no_files (Response Sample2.latin1)))
                             eq_refl) Sample2.latin1 eq_refl) eq_refl).
    reflexivity.
  - rewrite (proj2 (proj2 (proj2 (token_method_errors (H := RefLib.lib) Sample.app
                                    (AuthorizationCode "CODE")
                                    (Sample.world Sample.no_files (Response Sample2.html)))
                             eq_refl) Sample2.html eq_refl) Sample2.html eq_refl eq_refl).
    reflexivity.
Defined.

Lemma get_credentials_stale_errors_witness :
  fst (get_credentials (H := RefLib.lib) Sample.app
         (Sample2.cache_with (Sample.cached 1010) Unreachable)) = Ok None /\
  fst (get_credentials (H := RefLib.lib) Sample.app
         (Sample2.cache_with (Sample.cached 1010) (Response Sample2.html))) = Ok None /\
  fst (get_credentials (H := RefLib.lib) Sample2.accented
         (Sample2.cache_with (Sample.cached 1010) Unreachable)) = Raise UnicodeEncodeError.
Proof.
  split; [|split].
  - rewrite (proj1 (proj2 (get_credentials_stale_errors (H := RefLib.lib) Sample.app
                             (Sample2.cache_with (Sample.cached 1010) Unreachable)
                             (Sample.cached 1010) _ (JInt 1010) (JStr "RT1")
                             eq_refl eq_refl eq_refl eq_refl eq_refl) eq_refl) eq_refl).
    reflexivity.
  - rewrite (proj2 (proj2 (proj2 (get_credentials_stale_errors (H := RefLib.lib) Sample.app
                             (Sample2.cache_with (Sample.cached 1010) (Response Sample2.html))
                             (Sample.cached 1010) _ (JInt 1010) (JStr "RT1")
                             eq_refl eq_refl eq_refl eq_refl eq_refl) eq_refl)
                      Sample2.html eq_refl) Sample2.html eq_refl eq_refl).
    reflexivity.
  - rewrite (proj1 (get_credentials_stale_errors (H := RefLib.lib) Sample2.accented
                      (Sample2.cache_with (Sample.cached 1010) Unreachable)
                      (Sample.cached 1010) _ (JInt 1010) (JStr "RT1")
                      eq_refl eq_refl eq_refl eq_refl eq_refl) eq_refl).
    reflexivity.
Defined.

Lemma get_credentials_frame_witness :
  exists r w',
    get_credentials (H := RefLib.lib) Sample.app Sample.stale_world = (r, w') /\
    clock w' = clock Sample.stale_world /\ net w' = net Sample.stale_world /\
    (forall p, p <> cache Sample.app -> fs w' p = fs Sample.stale_world p) /\
    (sent w' = sent Sample.stale_world \/
     exists rt, sent w' = sent Sample.stale_world
                            ++ [refresh_request (H := RefLib.lib) Sample.app rt]) /\
    (fs w' = fs Sample.stale_world \/
     exists token, r = Ok (Some token) /\
                   fs w' (cache Sample.app) = Regular (RefLib.dumps token)).
Proof.
  do 2 eexists. split; [vm_compute; reflexivity|].
  apply (get_credentials_frame (H := RefLib.lib) Sample.app Sample.stale_world).
  vm_compute. reflexivity.
Defined.

Lemma get_credentials_returns_stamped_witness :
  exists d x v,
    JDict [("access_token", JStr "AT1"); ("refresh_token", JStr "RT1");
           ("expires_in", JInt 3600); ("expires_at", JInt 5000)] = JDict d /\
    Dict.get "expires_at" d = Some x /\ numeric_value x = Some v.
Proof.
  apply (get_credentials_returns_stamped (H := RefLib.lib) Sample.app
           Sample.fresh_world (tick Sample.fresh_world)).
  reflexivity.
Defined.

Lemma token_then_credentials_witness :
  let w1 := put_file "/tmp/spotirec" (RefLib.dumps Sample.stamped_token)
              (tick (log_request (code_request (H := RefLib.lib) Sample.app "CODE")
                                 Sample.first_run)) in
  exists m,
    subscript Sample.stamped_token "expires_at" = Ok (JInt m) /\
    (fst (is_token_expired (JInt m) w1) = Ok false ->
     get_credentials (H := RefLib.lib) Sample.app w1
       = (Ok (Some Sample.stamped_token), tick w1) /\
     sent (tick w1) = sent Sample.first_run
                        ++ [grant_request (H := RefLib.lib) Sample.app (AuthorizationCode "CODE")]).
Proof.
  cbv zeta.
  apply (token_then_credentials (H := RefLib.lib) Sample.app (AuthorizationCode "CODE")
           Sample.first_run); reflexivity.
Defined.

(** ** A token without a refresh token *)

Section LostRefreshToken.

Context `{PyLib}.
Variable self : SpotifyOAuth.


End LostRefreshToken.

